(** * A shallow embedding of the CHIP-8 interpreter of rust-chip-8

    Sources: [src/src/chip8/mod.rs] (machine state, [new], [load_rom],
    the illegal-opcode panics), [src/src/chip8/emulation.rs]
    ([emulate_cycle]) and [src/src/chip8/execution.rs] ([run]).

    The Rust code reports every failure by panicking (and the panic hook
    installed in [main] exits the process).  We model the interpreter in a
    state monad with a panic outcome that keeps the machine state reached at
    the point of the panic.  Fixed-size Rust arrays are lists whose length
    is the array size; indexing outside them is the bounds-check panic.
    Unsigned arithmetic with [+]/[-] panics on overflow in a build with
    overflow checks (the default debug profile) and wraps in a build
    without them (the release profile); both are modelled. *)

From Stdlib Require Import ZArith Lia String.
From stdpp Require Import base list.

Open Scope Z_scope.

(** ** Constants of [mod.rs] *)

Definition MAX_MEMORY_SIZE : Z := 4096.
Definition DISPLAY_WIDTH : Z := 64.
Definition DISPLAY_HEIGTH : Z := 32.
Definition MAX_DISPLAY_SIZE : Z := DISPLAY_WIDTH * DISPLAY_HEIGTH.
Definition MAX_STACK_SIZE : Z := 16.
Definition V_SIZE : Z := 16.

Definition CHIP8_FONTSET : list Z :=
  [0xF0; 0x90; 0x90; 0x90; 0xF0;
   0x20; 0x60; 0x20; 0x20; 0x70;
   0xF0; 0x10; 0xF0; 0x80; 0xF0;
   0xF0; 0x10; 0xF0; 0x10; 0xF0;
   0x90; 0x90; 0xF0; 0x10; 0x10;
   0xF0; 0x80; 0xF0; 0x10; 0xF0;
   0xF0; 0x80; 0xF0; 0x90; 0xF0;
   0xF0; 0x10; 0x20; 0x40; 0x40;
   0xF0; 0x90; 0xF0; 0x90; 0xF0;
   0xF0; 0x90; 0xF0; 0x10; 0xF0;
   0xF0; 0x90; 0xF0; 0x90; 0x90;
   0xE0; 0x90; 0xE0; 0x90; 0xE0;
   0xF0; 0x80; 0x80; 0x80; 0xF0;
   0xE0; 0x90; 0x90; 0x90; 0xE0;
   0xF0; 0x80; 0xF0; 0x80; 0xF0;
   0xF0; 0x80; 0xF0; 0x80; 0x80].

(** ** Machine state ([struct Chip8] and [struct Timers]) *)

Record Timers := mkTimers {
  delay_timer : Z;   (* u8 *)
  sound_timer : Z    (* u8 *)
}.

Record Chip8 := mkChip8 {
  rom_loaded : bool;
  opcode : Z;            (* u16 *)
  memory : list Z;       (* [u8; MAX_MEMORY_SIZE] *)
  v : list Z;            (* [u8; V_SIZE] *)
  i : Z;                 (* u16 *)
  pc : Z;                (* u16 *)
  display : list bool;   (* [bool; MAX_DISPLAY_SIZE] *)
  draw : bool;
  stack : list Z;        (* [u16; MAX_STACK_SIZE] *)
  sp : Z;                (* u8 *)
  timers : Timers
}.

(** Field assignments [self.f = e]. *)
Definition set_rom_loaded (b : bool) (s : Chip8) : Chip8 :=
  mkChip8 b (opcode s) (memory s) (v s) (i s) (pc s) (display s) (draw s)
          (stack s) (sp s) (timers s).
Definition set_opcode (o : Z) (s : Chip8) : Chip8 :=
  mkChip8 (rom_loaded s) o (memory s) (v s) (i s) (pc s) (display s) (draw s)
          (stack s) (sp s) (timers s).
Definition set_memory (m : list Z) (s : Chip8) : Chip8 :=
  mkChip8 (rom_loaded s) (opcode s) m (v s) (i s) (pc s) (display s) (draw s)
          (stack s) (sp s) (timers s).
Definition set_v (r : list Z) (s : Chip8) : Chip8 :=
  mkChip8 (rom_loaded s) (opcode s) (memory s) r (i s) (pc s) (display s)
          (draw s) (stack s) (sp s) (timers s).
Definition set_i (a : Z) (s : Chip8) : Chip8 :=
  mkChip8 (rom_loaded s) (opcode s) (memory s) (v s) a (pc s) (display s)
          (draw s) (stack s) (sp s) (timers s).
Definition set_pc (a : Z) (s : Chip8) : Chip8 :=
  mkChip8 (rom_loaded s) (opcode s) (memory s) (v s) (i s) a (display s)
          (draw s) (stack s) (sp s) (timers s).
Definition set_display (d : list bool) (s : Chip8) : Chip8 :=
  mkChip8 (rom_loaded s) (opcode s) (memory s) (v s) (i s) (pc s) d (draw s)
          (stack s) (sp s) (timers s).
Definition set_draw (b : bool) (s : Chip8) : Chip8 :=
  mkChip8 (rom_loaded s) (opcode s) (memory s) (v s) (i s) (pc s) (display s)
          b (stack s) (sp s) (timers s).
Definition set_stack (st : list Z) (s : Chip8) : Chip8 :=
  mkChip8 (rom_loaded s) (opcode s) (memory s) (v s) (i s) (pc s) (display s)
          (draw s) st (sp s) (timers s).
Definition set_sp (p : Z) (s : Chip8) : Chip8 :=
  mkChip8 (rom_loaded s) (opcode s) (memory s) (v s) (i s) (pc s) (display s)
          (draw s) (stack s) p (timers s).

(** [Chip8::new]: zeroed state, PC at 0x200, fontset at 0x00-0x50. *)
Definition new : Chip8 :=
  mkChip8 false 0
          (CHIP8_FONTSET ++ repeat 0 (Z.to_nat (MAX_MEMORY_SIZE - 80)))
          (repeat 0 (Z.to_nat V_SIZE)) 0 0x200
          (repeat false (Z.to_nat MAX_DISPLAY_SIZE)) false
          (repeat 0 (Z.to_nat MAX_STACK_SIZE)) 0 (mkTimers 0 0).

(** The array sizes fixed by the Rust types. *)
Definition wf (s : Chip8) : Prop :=
  length (memory s) = 4096%nat /\ length (v s) = 16%nat /\
  length (display s) = 2048%nat /\ length (stack s) = 16%nat.

(** ** Panics and the interpreter monad *)

Inductive panic_kind :=
| IndexOutOfBounds (index len : Z)          (* array bounds check *)
| ArithmeticOverflow                        (* overflow-checked [+]/[-] *)
| IllegalOpcode (op : Z)                    (* [panic_illegal_opcode] *)
| IllegalOpcodeCategory (op category : Z)   (* [panic_illegal_opcode_category] *)
| RomOpenError                              (* "opening rom file" *)
| RomReadError                              (* "reading rom file" *)
| RomNotLoaded                              (* "ROM is not loaded" *)
| IllegalInput.                             (* "illegal input" *)

Inductive outcome (A : Type) : Type :=
| Done (a : A) (s : Chip8)
| Panicked (e : panic_kind) (s : Chip8).
Arguments Done {A} a s.
Arguments Panicked {A} e s.

Definition M (A : Type) : Type := Chip8 -> outcome A.

Definition ret {A} (a : A) : M A := fun s => Done a s.
Definition bind {A B} (m : M A) (f : A -> M B) : M B :=
  fun s => match m s with
           | Done a s' => f a s'
           | Panicked e s' => Panicked e s'
           end.
Definition gets {A} (f : Chip8 -> A) : M A := fun s => Done (f s) s.
Definition modify (f : Chip8 -> Chip8) : M unit := fun s => Done tt (f s).
Definition panic {A} (e : panic_kind) : M A := fun s => Panicked e s.

Notation "'let*' x ':=' m 'in' f" := (bind m (fun x => f))
  (at level 200, x name, m at level 100, f at level 200).

Definition final_state {A} (o : outcome A) : Chip8 :=
  match o with Done _ s => s | Panicked _ s => s end.

(** Indexing a fixed-size array: [a[k]] and [a[k] = x]. *)
Definition index {A} (l : list A) (k : Z) : M A :=
  match l !! Z.to_nat k with
  | Some a => ret a
  | None => panic (IndexOutOfBounds k (Z.of_nat (length l)))
  end.

Definition update {A} (l : list A) (k : Z) (a : A) : M (list A) :=
  if (Z.to_nat k <? length l)%nat then ret (<[Z.to_nat k := a]> l)
  else panic (IndexOutOfBounds k (Z.of_nat (length l))).

Definition read_memory (k : Z) : M Z := fun s => index (memory s) k s.
Definition read_v (k : Z) : M Z := fun s => index (v s) k s.
Definition read_display (k : Z) : M bool := fun s => index (display s) k s.
Definition read_stack (k : Z) : M Z := fun s => index (stack s) k s.

Definition write_memory (k b : Z) : M unit :=
  fun s => bind (update (memory s) k b) (fun m => modify (set_memory m)) s.
Definition write_v (k b : Z) : M unit :=
  fun s => bind (update (v s) k b) (fun r => modify (set_v r)) s.
Definition write_display (k : Z) (b : bool) : M unit :=
  fun s => bind (update (display s) k b) (fun d => modify (set_display d)) s.
Definition write_stack (k a : Z) : M unit :=
  fun s => bind (update (stack s) k a) (fun st => modify (set_stack st)) s.

(** ** Unsigned arithmetic of the two build profiles *)

Inductive overflow_checks := Checked | Wrapping.

(** The result [r] of a [w]-bit [+] or [-]. *)
Definition arith (ovf : overflow_checks) (w r : Z) : M Z :=
  if (0 <=? r) && (r <? 2 ^ w) then ret r
  else match ovf with
       | Checked => panic ArithmeticOverflow
       | Wrapping => ret (r mod 2 ^ w)
       end.

(** ** One cycle: [Chip8::emulate_cycle] (emulation.rs) *)

Section Emulation.

(** The overflow-check setting of the build. *)
Variable ovf : overflow_checks.
(** The random number generator: [rng.gen::<u8>()] returns a byte and the
    next generator state. *)
Variable R : Type.
Variable gen_u8 : R -> Z * R.

(** [self.pc += 2] *)
Definition advance_pc : M unit :=
  let* p := gets pc in
  let* p' := arith ovf 16 (p + 2) in
  modify (set_pc p').

(** [for i in 0..MAX_DISPLAY_SIZE { self.display[i] = false; }] *)
Fixpoint clear_loop (k : Z) (fuel : nat) : M unit :=
  match fuel with
  | O => ret tt
  | S f => let* _ := write_display k false in clear_loop (k + 1) f
  end.

(** The inner loop of the draw opcode, over [sprite_bit] in [0..8]. *)
Fixpoint draw_row_bits (x_coord y_row data sprite_bit : Z) (fuel : nat)
  : M unit :=
  match fuel with
  | O => ret tt
  | S f =>
      let* xb := arith ovf 8 (x_coord + sprite_bit) in
      if DISPLAY_WIDTH <=? xb then ret tt
      else
        let current_bit := Z.land (Z.shiftr 0x80 sprite_bit) data in
        let x_y_coord := xb + y_row * DISPLAY_WIDTH in
        let* _ :=
          (if negb (current_bit =? 0) then
             let* on := read_display x_y_coord in
             if on then
               let* _ := write_display x_y_coord false in write_v 0xF 1
             else write_display x_y_coord true
           else ret tt) in
        draw_row_bits x_coord y_row data (sprite_bit + 1) f
  end.

(** The outer loop of the draw opcode, over [sprite_row] in [0..heigth]. *)
Fixpoint draw_rows (x_coord y_coord sprite_row : Z) (fuel : nat) : M unit :=
  match fuel with
  | O => ret tt
  | S f =>
      let* yr := arith ovf 8 (y_coord + sprite_row) in
      if DISPLAY_HEIGTH <=? yr then ret tt
      else
        let* ir := gets i in
        let* sprite_row_data := read_memory (ir + sprite_row) in
        let* _ := draw_row_bits x_coord yr sprite_row_data 0 8 in
        draw_rows x_coord y_coord (sprite_row + 1) f
  end.

(** The opcode-dependent part of [emulate_cycle], after [self.opcode] has
    been set from the fetched bytes.  Returns the generator state. *)
Definition execute (rng : R) : M R :=
  let* opc := gets opcode in
  let op := Z.land opc 0xF000 in
  let x := Z.shiftr (Z.land opc 0x0F00) 8 in
  let y := Z.shiftr (Z.land opc 0x00F0) 4 in
  let n := Z.land opc 0x000F in
  let nn := Z.land opc 0x00FF in
  let nnn := Z.land opc 0x0FFF in
  if op =? 0x0000 then
    if nnn =? 0x00E0 then
      (* clear screen *)
      let* _ := clear_loop 0 (Z.to_nat MAX_DISPLAY_SIZE) in
      let* _ := modify (set_draw true) in
      let* _ := advance_pc in ret rng
    else if nnn =? 0x00EE then
      (* return from subroutine *)
      let* s0 := gets sp in
      let* s1 := arith ovf 8 (s0 - 1) in
      let* _ := modify (set_sp s1) in
      let* addr := read_stack s1 in
      let* _ := modify (set_pc addr) in ret rng
    else panic (IllegalOpcodeCategory opc op)
  else if op =? 0x1000 then
    (* jump *)
    let* _ := modify (set_pc nnn) in ret rng
  else if op =? 0x2000 then
    (* subroutine call *)
    let* p := gets pc in
    let* s0 := gets sp in
    let* _ := write_stack s0 p in
    let* s1 := arith ovf 8 (s0 + 1) in
    let* _ := modify (set_sp s1) in
    let* _ := modify (set_pc nnn) in ret rng
  else if op =? 0x3000 then
    let* vx := read_v x in
    let* _ := (if vx =? nn then advance_pc else ret tt) in
    let* _ := advance_pc in ret rng
  else if op =? 0x4000 then
    let* vx := read_v x in
    let* _ := (if negb (vx =? nn) then advance_pc else ret tt) in
    let* _ := advance_pc in ret rng
  else if op =? 0x5000 then
    if n =? 0x00 then
      let* vx := read_v x in
      let* vy := read_v y in
      let* _ := (if vx =? vy then advance_pc else ret tt) in
      let* _ := advance_pc in ret rng
    else panic (IllegalOpcodeCategory opc op)
  else if op =? 0x6000 then
    let* _ := write_v x nn in
    let* _ := advance_pc in ret rng
  else if op =? 0x7000 then
    (* computed in u16, then [as u8] *)
    let* vx := read_v x in
    let res := vx + nn in
    let* _ := write_v x (Z.land res 0xFF) in
    let* _ := advance_pc in ret rng
  else if op =? 0x8000 then
    if n =? 0x00 then
      let* vy := read_v y in
      let* _ := write_v x vy in
      let* _ := advance_pc in ret rng
    else if n =? 0x01 then
      let* vy := read_v y in
      let* vx := read_v x in
      let* _ := write_v x (Z.lor vx vy) in
      let* _ := advance_pc in ret rng
    else if n =? 0x02 then
      let* vy := read_v y in
      let* vx := read_v x in
      let* _ := write_v x (Z.land vx vy) in
      let* _ := advance_pc in ret rng
    else if n =? 0x03 then
      let* vy := read_v y in
      let* vx := read_v x in
      let* _ := write_v x (Z.lxor vx vy) in
      let* _ := advance_pc in ret rng
    else if n =? 0x04 then
      let* vx := read_v x in
      let* vy := read_v y in
      let res := vx + vy in
      let* _ := (if 255 <? res then write_v 0xF 1 else write_v 0xF 0) in
      let* _ := write_v x (Z.land res 0xFF) in
      let* _ := advance_pc in ret rng
    else if n =? 0x05 then
      let* a := read_v x in
      let* b := read_v y in
      let* _ := (if b <? a then write_v 0xF 1 else write_v 0xF 0) in
      let* d := arith ovf 8 (a - b) in
      let* _ := write_v x d in
      let* _ := advance_pc in ret rng
    else if n =? 0x06 then
      let* vy := read_v y in
      let* _ := write_v x vy in
      let* vx := read_v x in
      let* _ := write_v 0xF (Z.land vx 0x0F) in
      let* vx' := read_v x in
      let* _ := write_v x (Z.shiftr vx' 1) in
      let* _ := advance_pc in ret rng
    else if n =? 0x07 then
      let* a := read_v y in
      let* b := read_v x in
      let* _ := (if b <? a then write_v 0xF 1 else write_v 0xF 0) in
      let* d := arith ovf 8 (a - b) in
      let* _ := write_v x d in
      let* _ := advance_pc in ret rng
    else if n =? 0x0E then
      let* vy := read_v y in
      let* _ := write_v x vy in
      let* vx := read_v x in
      let* _ := write_v 0xF (Z.land vx 0x0F) in
      let* vx' := read_v x in
      (* [u8 <<= 1] drops the bit shifted out *)
      let* _ := write_v x (Z.land (Z.shiftl vx' 1) 0xFF) in
      let* _ := advance_pc in ret rng
    else panic (IllegalOpcodeCategory opc op)
  else if op =? 0x9000 then
    if n =? 0x00 then
      let* vx := read_v x in
      let* vy := read_v y in
      let* _ := (if negb (vx =? vy) then advance_pc else ret tt) in
      let* _ := advance_pc in ret rng
    else panic (IllegalOpcodeCategory opc op)
  else if op =? 0xA000 then
    let* _ := modify (set_i nnn) in
    let* _ := advance_pc in ret rng
  else if op =? 0xB000 then
    let* v0 := read_v 0 in
    let* p := arith ovf 16 (nnn + v0) in
    let* _ := modify (set_pc p) in ret rng
  else if op =? 0xC000 then
    let (rand, rng') := gen_u8 rng in
    let* _ := write_v x (Z.land rand nn) in
    let* _ := advance_pc in ret rng'
  else if op =? 0xD000 then
    let* vx := read_v x in
    let x_coord := vx mod DISPLAY_WIDTH in
    let* vy := read_v y in
    let y_coord := vy mod DISPLAY_HEIGTH in
    let heigth := n in
    let* _ := write_v 0xF 0 in
    let* _ := draw_rows x_coord y_coord 0 (Z.to_nat heigth) in
    let* _ := modify (set_draw true) in
    let* _ := advance_pc in ret rng
  else panic (IllegalOpcode opc).

(** [emulate_cycle]: fetch two bytes at [pc], combine them big-endian into
    [self.opcode], then execute. *)
Definition emulate_cycle (rng : R) : M R :=
  let* p := gets pc in
  let* first_byte_opcode := read_memory p in
  let* p1 := arith ovf 16 (p + 1) in
  let* second_byte_opcode := read_memory p1 in
  let* _ := modify (set_opcode
              (Z.lor (Z.land (Z.shiftl first_byte_opcode 8) 0xFFFF)
                     second_byte_opcode)) in
  execute rng.

End Emulation.

(** ** [Chip8::load_rom] (mod.rs) *)

(** What opening and reading the ROM file gives: its contents, or the
    error of [File::open] or of [read_to_end]. *)
Inductive rom_file :=
| RomContents (contents : list Z)
| OpenFails
| ReadFails.

(** [for i in 0..read_bytes { self.memory[i + 0x200] = contents[i]; }] *)
Fixpoint copy_rom (contents : list Z) (k : Z) : M unit :=
  match contents with
  | [] => ret tt
  | b :: rest =>
      let* _ := write_memory (k + 0x200) b in copy_rom rest (k + 1)
  end.

Definition load_rom (file : rom_file) : M unit :=
  match file with
  | OpenFails => panic RomOpenError
  | ReadFails => panic RomReadError
  | RomContents contents =>
      let* _ := copy_rom contents 0 in
      modify (set_rom_loaded true)
  end.

(** ** [Chip8::run] (execution.rs) *)

Section Run.

Variable ovf : overflow_checks.
Variable R : Type.
Variable gen_u8 : R -> Z * R.
(** [StdRng::seed_from_u64] *)
Variable seed_from_u64 : Z -> R.

(** The main loop.  Wall-clock pacing and printing the display do not touch
    the machine state.  [inputs] are the trimmed lines read from stdin in
    stepping mode (an exhausted stdin reads an empty line).  [fuel] bounds
    the number of modelled iterations of the endless loop. *)
Fixpoint run_loop (stepping : bool) (inputs : list string) (rng : R)
         (fuel : nat) : M unit :=
  match fuel with
  | O => ret tt
  | S f =>
      let* rng' := emulate_cycle ovf R gen_u8 rng in
      if stepping then
        let next := match inputs with [] => ""%string | l :: _ => l end in
        if String.eqb next "n" then run_loop stepping (tail inputs) rng' f
        else if String.eqb next "q" then ret tt
        else panic IllegalInput
      else run_loop stepping inputs rng' f
  end.

Definition run (stepping : bool) (seed : Z) (inputs : list string)
           (fuel : nat) : M unit :=
  let* loaded := gets rom_loaded in
  if negb loaded then panic RomNotLoaded
  else run_loop stepping inputs (seed_from_u64 seed) fuel.

End Run.

(** ** Concrete runs *)

Definition no_rng : unit -> Z * unit := fun u => (0, u).

(** The machine after loading [rom] into a fresh instance. *)
Definition loaded (rom : list Z) : Chip8 :=
  final_state (load_rom (RomContents rom) new).

Fixpoint cycles (ovf : overflow_checks) (k : nat) (s : Chip8) : outcome unit :=
  match k with
  | O => Done tt s
  | S k' =>
      match emulate_cycle ovf unit no_rng tt s with
      | Done _ s' => cycles ovf k' s'
      | Panicked e s' => Panicked e s'
      end
  end.

(** ** Opcodes, the spec's opcode table, and the draw as a list of cells *)

(** The opcode with nibbles [c x y n], most significant first. *)
Definition mk_opcode (c x y n : Z) : Z := c * 4096 + x * 256 + y * 16 + n.

(** The decoding of [emulate_cycle] agrees with the positional fields
    (top nibble, second, third and fourth nibble, low byte, low 12 bits). *)
Definition decode_ok (op : Z) : bool :=
  (Z.land op 0xF000 =? op / 4096 * 4096) &&
  (Z.shiftr (Z.land op 0x0F00) 8 =? (op / 256) mod 16) &&
  (Z.shiftr (Z.land op 0x00F0) 4 =? (op / 16) mod 16) &&
  (Z.land op 0x000F =? op mod 16) &&
  (Z.land op 0x00FF =? op mod 256) &&
  (Z.land op 0x0FFF =? op mod 4096).

(** Combining the fetched bytes is the big-endian value. *)
Definition fetch_ok (b1 b2 : Z) : bool :=
  Z.lor (Z.land (Z.shiftl b1 8) 0xFFFF) b2 =? b1 * 256 + b2.

Fixpoint range_from (start : Z) (n : nat) : list Z :=
  match n with
  | O => []
  | S n' => start :: range_from (start + 1) n'
  end.

Definition range (n : nat) : list Z := range_from 0 n.

(** The opcode table of the spec (section 4.3): [true] for the listed
    (category, n, nnn) combinations. *)
Definition in_table (op : Z) : bool :=
  let category := op / 4096 in
  let n := op mod 16 in
  let nnn := op mod 4096 in
  if category =? 0x0 then (nnn =? 0x0E0) || (nnn =? 0x0EE)
  else if category =? 0x5 then n =? 0
  else if category =? 0x8 then (n <=? 7) || (n =? 0xE)
  else if category =? 0x9 then n =? 0
  else category <=? 0xD.

(** The categories of the table that have sub-cases. *)
Definition has_subcases (op : Z) : bool :=
  let category := op / 4096 in
  (category =? 0x0) || (category =? 0x5) || (category =? 0x8) ||
  (category =? 0x9).

(** Toggling one display cell as the draw does, returning the collision. *)
Definition toggle (d : list bool) (k : Z) : list bool * bool :=
  match d !! Z.to_nat k with
  | Some true => (<[Z.to_nat k := false]> d, true)
  | Some false => (<[Z.to_nat k := true]> d, false)
  | None => (d, false)
  end.

Fixpoint toggle_all (d : list bool) (ks : list Z) : list bool * bool :=
  match ks with
  | [] => (d, false)
  | k :: rest =>
      let (d1, c1) := toggle d k in
      let (d2, c2) := toggle_all d1 rest in (d2, c1 || c2)
  end.

(** The cells a sprite row toggles, in the order of [draw_row_bits]. *)
Fixpoint row_cells (x_coord y_row data sprite_bit : Z) (fuel : nat)
  : list Z :=
  match fuel with
  | O => []
  | S f =>
      if DISPLAY_WIDTH <=? x_coord + sprite_bit then []
      else
        let rest := row_cells x_coord y_row data (sprite_bit + 1) f in
        if negb (Z.land (Z.shiftr 0x80 sprite_bit) data =? 0)
        then (x_coord + sprite_bit + y_row * DISPLAY_WIDTH) :: rest
        else rest
  end.

(** The cells the sprite toggles, in the order of [draw_rows]. *)
Fixpoint rows_cells (mem : list Z) (ir x_coord y_coord sprite_row : Z)
         (fuel : nat) : list Z :=
  match fuel with
  | O => []
  | S f =>
      if DISPLAY_HEIGTH <=? y_coord + sprite_row then []
      else
        row_cells x_coord (y_coord + sprite_row)
                  (default 0 (mem !! Z.to_nat (ir + sprite_row))) 0 8
        ++ rows_cells mem ir x_coord y_coord (sprite_row + 1) f
  end.

(** A computation that leaves memory and the timers as they were, whether
    it completes or panics. *)
Definition preserves {A} (m : M A) : Prop :=
  forall s, memory (final_state (m s)) = memory s /\
            timers (final_state (m s)) = timers s.

(** A fresh machine with the given registers, about to execute [op]. *)
Definition with_regs (r : list Z) (op : Z) : Chip8 :=
  set_opcode op (set_v r new).

(** The state after a draw has toggled the display into [d]; VF is set
    to 1 when [c] reports a collision. *)
Definition drawn (s : Chip8) (d : list bool) (c : bool) : Chip8 :=
  set_display d (set_v (if c then <[15%nat := 1]> (v s) else v s) s).

(** ** Concrete machines *)

(** A program whose first instruction is 0xFFFF. *)
Definition rom_ffff : Chip8 := loaded [0xFF; 0xFF].

(** V0 := 1, VF := 1, then 0x8F04 (x = 0xF, y = 0). *)
Definition add_into_vf : Chip8 := loaded [0x60; 0x01; 0x6F; 0x01; 0x8F; 0x04].

(** VF := 5, V0 := 3, then 0x8F05 (x = 0xF, y = 0). *)
Definition sub_into_vf : Chip8 := loaded [0x6F; 0x05; 0x60; 0x03; 0x8F; 0x05].

(** A call at 0x200 to 0x204, where a return waits. *)
Definition call_then_return : Chip8 :=
  loaded [0x22; 0x04; 0x00; 0x00; 0x00; 0xEE].

(** A call with the stack full, and a return with the stack empty. *)
Definition full_stack_call : Chip8 :=
  set_sp 16 (with_regs (repeat 0 16) (mk_opcode 2 2 0 0)).
Definition empty_stack_return : Chip8 :=
  with_regs (repeat 0 16) (mk_opcode 0 0 14 14).

(** V0 := 3, then 0x8106 (x = 1, y = 0). *)
Definition shift_right_3 : Chip8 := loaded [0x60; 0x03; 0x81; 0x06].
(** V0 := 0x80, then 0x810E (x = 1, y = 0). *)
Definition shift_left_80 : Chip8 := loaded [0x60; 0x80; 0x81; 0x0E].

(** The font glyph 0 (at I = 0) drawn by 0xD015 with V0 = V1 = 0. *)
Definition draw_glyph : Chip8 := with_regs (repeat 0 16) (mk_opcode 13 0 1 5).
(** VF := 5, then 0xDF01 twice (x = 0xF, y = 0, the top row of glyph 0). *)
Definition draw_at_vf : Chip8 := loaded [0x6F; 0x05; 0xDF; 0x01; 0xDF; 0x01].

(** ** More of [mod.rs]: [reset], [load_fontset], [clear_display], [dump_display] *)

(** Writing [self.timers]. *)
Definition set_timers (t : Timers) (s : Chip8) : Chip8 :=
  mkChip8 (rom_loaded s) (opcode s) (memory s) (v s) (i s) (pc s) (display s)
          (draw s) (stack s) (sp s) t.

(** [for i in 0..N { self.a[i] = 0; }] over the array written by [write]. *)
Fixpoint zero_loop (write : Z -> Z -> M unit) (k : Z) (fuel : nat) : M unit :=
  match fuel with
  | O => ret tt
  | S f => let* _ := write k 0 in zero_loop write (k + 1) f
  end.

(** [Chip8::load_fontset]:
    [for i in 0x00..0x50 { self.memory[i] = CHIP8_FONTSET[i]; }] *)
Fixpoint fontset_loop (k : Z) (fuel : nat) : M unit :=
  match fuel with
  | O => ret tt
  | S f =>
      let* b := index CHIP8_FONTSET k in
      let* _ := write_memory k b in fontset_loop (k + 1) f
  end.

Definition load_fontset : M unit := fontset_loop 0x00 0x50.

(** [Chip8::clear_display] *)
Definition clear_display : M unit := clear_loop 0 (Z.to_nat MAX_DISPLAY_SIZE).

(** [Chip8::reset] (the [debug!] formatting reads the state only). *)
Definition reset : M unit :=
  let* _ := modify (set_rom_loaded false) in
  let* _ := modify (set_opcode 0) in
  let* _ := zero_loop write_memory 0 (Z.to_nat MAX_MEMORY_SIZE) in
  let* _ := zero_loop write_v 0 (Z.to_nat V_SIZE) in
  let* _ := modify (set_i 0) in
  let* _ := modify (set_pc 0x200) in
  let* _ := clear_display in
  let* _ := modify (set_draw false) in
  let* _ := zero_loop write_stack 0 (Z.to_nat MAX_STACK_SIZE) in
  let* _ := modify (set_sp 0) in
  let* _ := load_fontset in
  let* _ := modify (fun s => set_timers (mkTimers 0 (sound_timer (timers s))) s) in
  modify (fun s => set_timers (mkTimers (delay_timer (timers s)) 0) s).

(** The line break of [display_str += "\n"]. *)
Definition newline : string := String (Ascii.ascii_of_nat 10) EmptyString.

(** The loop of [Chip8::dump_display]. *)
Fixpoint dump_display_loop (k : Z) (fuel : nat) (display_str : string)
  : M string :=
  match fuel with
  | O => ret display_str
  | S f =>
      let display_str :=
        if k mod DISPLAY_WIDTH =? 0 then (display_str ++ newline)%string
        else display_str in
      let* on := read_display k in
      dump_display_loop (k + 1) f
        (display_str ++ (if on then "1" else "0"))%string
  end.

(** [Chip8::dump_display]: [MAX_DISPLAY_SIZE] iterations from an empty string. *)
Definition dump_display : M string :=
  dump_display_loop 0 (Z.to_nat MAX_DISPLAY_SIZE) "".

(** ** Several cycles, and the stack-pointer invariant *)

(** [n] cycles of [emulate_cycle], threading the generator. *)
Fixpoint steps ovf R gen_u8 (n : nat) (rng : R) : M R :=
  match n with
  | O => ret rng
  | S n' => let* rng' := emulate_cycle ovf R gen_u8 rng in steps ovf R gen_u8 n' rng'
  end.

(** The stack pointer stays within the 16-entry stack. *)
Definition sp_ok (s : Chip8) : Prop := wf s /\ 0 <= sp s <= 16.

(** [m], when it completes, keeps [P]. *)
Definition keeps {A} (P : Chip8 -> Prop) (m : M A) : Prop :=
  forall s a s', P s -> m s = Done a s' -> P s'.


(** Machines for the examples of the other opcodes: V0 = 7, V1 = 200. *)
Definition regs_7_200 : Chip8 :=
  with_regs [7; 200; 0; 0; 0; 0; 0; 0; 0; 0; 0; 0; 0; 0; 0; 0] 0.

(** A generator that always yields 0xA5. *)
Definition const_rng : unit -> Z * unit := fun u => (0xA5, u).

(** I = 4095: a two-row sprite whose second row lies past the memory. *)
Definition sprite_at_end : Chip8 := set_i 4095 (with_regs (repeat 0 16) 0).


(** ** Lemmas *)

Lemma in_range_from start n z :
  start <= z < start + Z.of_nat n -> In z (range_from start n).
Proof.
  revert start. induction n as [|n IH]; intros start Hz; simpl; [lia|].
  destruct (decide (z = start)); [left; congruence|right].
  apply IH. lia.
Qed.

Lemma forall_range (P : Z -> bool) (n : nat) :
  forallb P (range n) = true -> forall z, 0 <= z < Z.of_nat n -> P z = true.
Proof.
  unfold range. rewrite forallb_forall. intros H z Hz.
  apply H, in_range_from. lia.
Qed.

Lemma decode_all : forallb decode_ok (range 65536) = true.
Proof. vm_compute. reflexivity. Qed.

Lemma fetch_all :
  forallb (fun b1 => forallb (fetch_ok b1) (range 256)) (range 256) = true.
Proof. vm_compute. reflexivity. Qed.

Lemma decode_fields op : 0 <= op < 65536 ->
  Z.land op 0xF000 = op / 4096 * 4096 /\
  Z.shiftr (Z.land op 0x0F00) 8 = (op / 256) mod 16 /\
  Z.shiftr (Z.land op 0x00F0) 4 = (op / 16) mod 16 /\
  Z.land op 0x000F = op mod 16 /\
  Z.land op 0x00FF = op mod 256 /\
  Z.land op 0x0FFF = op mod 4096.
Proof.
  intros Hop. pose proof (forall_range _ _ decode_all op Hop) as H.
  unfold decode_ok in H. repeat rewrite andb_true_iff in H. lia.
Qed.

Lemma fetch_value b1 b2 : 0 <= b1 < 256 -> 0 <= b2 < 256 ->
  Z.lor (Z.land (Z.shiftl b1 8) 0xFFFF) b2 = b1 * 256 + b2.
Proof.
  intros H1 H2.
  pose proof (forall_range _ _ fetch_all b1 H1) as H. cbv beta in H.
  pose proof (forall_range _ _ H b2 H2) as H'. unfold fetch_ok in H'. lia.
Qed.

Example e2e_three_cycles :
  match cycles Checked 3 (loaded [0x60; 0x05; 0x71; 0x03; 0x12; 0x04]) with
  | Done _ s => (v s !! 0%nat, v s !! 1%nat, pc s)
  | Panicked _ _ => (None, None, 0)
  end = (Some 5, Some 3, 0x204).
Proof. vm_compute. reflexivity. Qed.


(** *** Memory and timers are never written by a cycle *)

Create HintDb frame.

Lemma preserves_ret {A} (a : A) : preserves (ret a).
Proof. intros s. split; reflexivity. Qed.

Lemma preserves_gets {A} (f : Chip8 -> A) : preserves (gets f).
Proof. intros s. split; reflexivity. Qed.

Lemma preserves_panic {A} e : preserves (@panic A e).
Proof. intros s. split; reflexivity. Qed.

Lemma preserves_bind {A B} (m : M A) (f : A -> M B) :
  preserves m -> (forall a, preserves (f a)) -> preserves (bind m f).
Proof.
  intros Hm Hf s. unfold bind. specialize (Hm s).
  destruct (m s) as [a s'|e s']; simpl in *; [|exact Hm].
  destruct Hm, (Hf a s'). split; congruence.
Qed.

Lemma index_final {A} (l : list A) k s : final_state (index l k s) = s.
Proof. unfold index. destruct (l !! _); reflexivity. Qed.

Lemma update_final {A} (l : list A) k a s : final_state (update l k a s) = s.
Proof. unfold update. destruct (_ <? _)%nat; reflexivity. Qed.

Lemma preserves_read_memory k : preserves (read_memory k).
Proof. intros s. unfold read_memory. rewrite index_final. auto. Qed.
Lemma preserves_read_v k : preserves (read_v k).
Proof. intros s. unfold read_v. rewrite index_final. auto. Qed.
Lemma preserves_read_display k : preserves (read_display k).
Proof. intros s. unfold read_display. rewrite index_final. auto. Qed.
Lemma preserves_read_stack k : preserves (read_stack k).
Proof. intros s. unfold read_stack. rewrite index_final. auto. Qed.

Lemma preserves_write_v k b : preserves (write_v k b).
Proof.
  intros s. unfold write_v, update, bind.
  destruct (_ <? _)%nat; split; reflexivity.
Qed.
Lemma preserves_write_display k b : preserves (write_display k b).
Proof.
  intros s. unfold write_display, update, bind.
  destruct (_ <? _)%nat; split; reflexivity.
Qed.
Lemma preserves_write_stack k b : preserves (write_stack k b).
Proof.
  intros s. unfold write_stack, update, bind.
  destruct (_ <? _)%nat; split; reflexivity.
Qed.

Lemma preserves_arith ovf w r : preserves (arith ovf w r).
Proof.
  intros s. unfold arith. destruct (_ && _); [split; reflexivity|].
  destruct ovf; split; reflexivity.
Qed.

#[local] Hint Resolve preserves_ret preserves_gets preserves_panic
  preserves_read_memory preserves_read_v preserves_read_display
  preserves_read_stack preserves_write_v preserves_write_display
  preserves_write_stack preserves_arith : frame.

Ltac frame :=
  repeat match goal with
    | |- preserves (bind _ _) => apply preserves_bind; [ | intros ? ]
    | |- preserves (let _ := _ in _) => cbv zeta
    | |- preserves (if ?b then _ else _) => destruct b
    | |- preserves (let (_, _) := ?p in _) => destruct p
    | |- preserves (modify _) => intros ?; split; reflexivity
    | |- _ => solve [ eauto with frame ]
    end.

Lemma preserves_advance_pc ovf : preserves (advance_pc ovf).
Proof. unfold advance_pc. frame. Qed.
#[local] Hint Resolve preserves_advance_pc : frame.

Lemma preserves_clear_loop k fuel : preserves (clear_loop k fuel).
Proof. revert k. induction fuel; intros k; simpl; frame. Qed.

Lemma preserves_draw_row_bits ovf x_coord y_row data bit fuel :
  preserves (draw_row_bits ovf x_coord y_row data bit fuel).
Proof. revert bit. induction fuel; intros bit; simpl; frame. Qed.
#[local] Hint Resolve preserves_clear_loop preserves_draw_row_bits : frame.

Lemma preserves_draw_rows ovf x_coord y_coord row fuel :
  preserves (draw_rows ovf x_coord y_coord row fuel).
Proof. revert row. induction fuel; intros row; simpl; frame. Qed.
#[local] Hint Resolve preserves_draw_rows : frame.

Lemma preserves_execute ovf R gen_u8 rng :
  preserves (execute ovf R gen_u8 rng).
Proof. unfold execute. frame. Qed.
#[local] Hint Resolve preserves_execute : frame.

Lemma preserves_emulate_cycle ovf R gen_u8 rng :
  preserves (emulate_cycle ovf R gen_u8 rng).
Proof. unfold emulate_cycle. frame. Qed.
#[local] Hint Resolve preserves_emulate_cycle : frame.

Lemma preserves_run ovf R gen_u8 seed_from_u64 stepping seed inputs fuel :
  preserves (run ovf R gen_u8 seed_from_u64 stepping seed inputs fuel).
Proof.
  unfold run. frame.
  generalize (seed_from_u64 seed). revert inputs.
  induction fuel; intros inputs rng; simpl; frame.
Qed.

(** *** Small-step facts about the monad *)

Lemma arith_in_range ovf w r : 0 <= r < 2 ^ w -> arith ovf w r = ret r.
Proof.
  intros H. unfold arith.
  replace ((0 <=? r) && (r <? 2 ^ w)) with true by lia. reflexivity.
Qed.

Lemma wf_new : wf new.
Proof. repeat split; reflexivity. Qed.

(** C10: one cycle, whatever the opcode and whether it completes or panics,
    leaves the memory and both timers as they were; so does the [run] loop
    over any number of cycles: no path decrements a timer. *)
Theorem cycle_keeps_memory_and_timers ovf R gen_u8 seed_from_u64
        (rng : R) (s : Chip8) stepping seed inputs fuel :
  let s1 := final_state (emulate_cycle ovf R gen_u8 rng s) in
  let s2 := final_state (run ovf R gen_u8 seed_from_u64 stepping seed
                             inputs fuel s) in
  memory s1 = memory s /\
  delay_timer (timers s1) = delay_timer (timers s) /\
  sound_timer (timers s1) = sound_timer (timers s) /\
  memory s2 = memory s /\
  delay_timer (timers s2) = delay_timer (timers s) /\
  sound_timer (timers s2) = sound_timer (timers s).
Proof.
  simpl.
  destruct (preserves_emulate_cycle ovf R gen_u8 rng s) as [H1 H2].
  destruct (preserves_run ovf R gen_u8 seed_from_u64 stepping seed inputs
                          fuel s) as [H3 H4].
  rewrite H1, H2, H3, H4. repeat split.
Qed.

(** C9: with the program counter at 4095 or beyond, the fetch panics with
    the array bounds check of [memory] (an index at least 4096), before
    any state change; no address is wrapped and nothing outside the
    4096-byte memory is read. *)
Theorem fetch_out_of_bounds ovf R gen_u8 (rng : R) (s : Chip8) :
  wf s -> 4095 <= pc s ->
  exists k, 4096 <= k /\
    emulate_cycle ovf R gen_u8 rng s = Panicked (IndexOutOfBounds k 4096) s.
Proof.
  intros (Hm & _) Hpc. unfold emulate_cycle, bind, gets, read_memory, index.
  destruct (decide (pc s = 4095)) as [E|E].
  - rewrite E.
    destruct (lookup_lt_is_Some_2 (memory s) (Z.to_nat 4095)) as [b Hb];
      [rewrite Hm; lia|].
    rewrite Hb. unfold ret. rewrite arith_in_range by lia. unfold ret.
    rewrite (lookup_ge_None_2 (memory s) (Z.to_nat (4095 + 1)))
      by (rewrite Hm; lia).
    exists 4096. rewrite Hm. split; reflexivity.
  - rewrite (lookup_ge_None_2 (memory s) (Z.to_nat (pc s)))
      by (rewrite Hm; lia).
    exists (pc s). rewrite Hm. split; [lia|reflexivity].
Qed.

Lemma fetch_out_of_bounds_witness :
  wf (set_pc 4095 new) /\ 4095 <= pc (set_pc 4095 new) /\
  exists k, 4096 <= k /\
    emulate_cycle Checked unit no_rng tt (set_pc 4095 new)
    = Panicked (IndexOutOfBounds k 4096) (set_pc 4095 new).
Proof.
  split; [exact wf_new|]. split; [simpl; lia|].
  apply (fetch_out_of_bounds Checked unit no_rng tt (set_pc 4095 new)).
  - exact wf_new.
  - simpl; lia.
Defined.

(** *** Illegal opcodes *)

Lemma nibble_cases c : 0 <= c < 16 ->
  c = 0 \/ c = 1 \/ c = 2 \/ c = 3 \/ c = 4 \/ c = 5 \/ c = 6 \/ c = 7 \/
  c = 8 \/ c = 9 \/ c = 10 \/ c = 11 \/ c = 12 \/ c = 13 \/ c = 14 \/ c = 15.
Proof. lia. Qed.

(** The error [emulate_cycle] raises for an opcode outside the table. *)
Lemma execute_illegal ovf R gen_u8 (rng : R) (s : Chip8) :
  0 <= opcode s < 65536 -> in_table (opcode s) = false ->
  execute ovf R gen_u8 rng s =
  Panicked (if has_subcases (opcode s)
            then IllegalOpcodeCategory (opcode s) (opcode s / 4096 * 4096)
            else IllegalOpcode (opcode s)) s.
Proof.
  intros Hop Hnot. unfold execute, bind, gets.
  destruct (decode_fields _ Hop) as (E1 & E2 & E3 & E4 & E5 & E6).
  rewrite E1, E2, E3, E4, E5, E6.
  unfold in_table, has_subcases in *.
  assert (Hc : 0 <= opcode s / 4096 < 16) by (split; [apply Z.div_pos|apply Z.div_lt_upper_bound]; lia).
  destruct (nibble_cases _ Hc) as
    [C|[C|[C|[C|[C|[C|[C|[C|[C|[C|[C|[C|[C|[C|[C|C]]]]]]]]]]]]]]];
    rewrite C in *; simpl in Hnot |- *; try discriminate.
  - apply orb_false_iff in Hnot as [-> ->]. reflexivity.
  - rewrite Hnot. reflexivity.
  - apply orb_false_iff in Hnot as [H1 H2].
    assert (Hn : 0 <= opcode s mod 16 < 16) by (apply Z.mod_pos_bound; lia).
    destruct (nibble_cases _ Hn) as
      [N|[N|[N|[N|[N|[N|[N|[N|[N|[N|[N|[N|[N|[N|[N|N]]]]]]]]]]]]]]];
      rewrite N in *; simpl in *; try discriminate; reflexivity.
  - rewrite Hnot. reflexivity.
  - reflexivity.
  - reflexivity.
Qed.

(** Fetching two bytes in range: [emulate_cycle] is [execute] on the state
    whose [opcode] is their big-endian combination. *)
Lemma emulate_cycle_fetch ovf R gen_u8 (rng : R) (s : Chip8) b1 b2 :
  0 <= pc s -> pc s + 1 < 65536 ->
  memory s !! Z.to_nat (pc s) = Some b1 ->
  memory s !! Z.to_nat (pc s + 1) = Some b2 ->
  0 <= b1 < 256 -> 0 <= b2 < 256 ->
  emulate_cycle ovf R gen_u8 rng s =
  execute ovf R gen_u8 rng (set_opcode (b1 * 256 + b2) s).
Proof.
  intros Hpc Hpc1 H1 H2 Hb1 Hb2.
  unfold emulate_cycle, bind, gets, read_memory, index, ret, modify.
  cbv beta iota. rewrite H1. cbv beta iota.
  rewrite arith_in_range by (simpl; lia). unfold ret. cbv beta iota.
  rewrite H2. rewrite fetch_value by lia. reflexivity.
Qed.

(** C7: a cycle whose two fetched bytes form an opcode outside the table
    (0xFFFF among them) panics with [IllegalOpcodeCategory] carrying the raw
    opcode and its category (0x0000, 0x5000, 0x8000 or 0x9000, the
    categories with sub-cases) or with [IllegalOpcode] carrying the raw
    opcode (categories 0xE and 0xF); the state at the panic is the state
    before the cycle with only [opcode] set to the fetched opcode: registers,
    memory, display, stack, stack pointer, program counter and timers are
    unchanged. *)
Theorem illegal_opcode_fails ovf R gen_u8 (rng : R) (s : Chip8) b1 b2 :
  0 <= pc s -> pc s + 1 < 4096 ->
  memory s !! Z.to_nat (pc s) = Some b1 ->
  memory s !! Z.to_nat (pc s + 1) = Some b2 ->
  0 <= b1 < 256 -> 0 <= b2 < 256 ->
  in_table (b1 * 256 + b2) = false ->
  let op := b1 * 256 + b2 in
  emulate_cycle ovf R gen_u8 rng s =
  Panicked (if has_subcases op
            then IllegalOpcodeCategory op (op / 4096 * 4096)
            else IllegalOpcode op) (set_opcode op s).
Proof.
  intros Hpc Hpc1 H1 H2 Hb1 Hb2 Hnot op.
  rewrite (emulate_cycle_fetch ovf R gen_u8 rng s b1 b2) by (auto; lia).
  apply (execute_illegal ovf R gen_u8 rng (set_opcode op s)); simpl; [lia|].
  exact Hnot.
Qed.

Lemma illegal_opcode_fails_witness :
  0 <= pc rom_ffff /\ pc rom_ffff + 1 < 4096 /\
  memory rom_ffff !! Z.to_nat (pc rom_ffff) = Some 0xFF /\
  memory rom_ffff !! Z.to_nat (pc rom_ffff + 1) = Some 0xFF /\
  in_table 0xFFFF = false /\
  emulate_cycle Checked unit no_rng tt rom_ffff =
  Panicked (IllegalOpcode 0xFFFF) (set_opcode 0xFFFF rom_ffff).
Proof.
  split; [vm_compute; congruence|].
  split; [vm_compute; reflexivity|].
  split; [vm_compute; reflexivity|].
  split; [vm_compute; reflexivity|].
  split; [vm_compute; reflexivity|].
  exact (illegal_opcode_fails Checked unit no_rng tt rom_ffff 0xFF 0xFF
           ltac:(vm_compute; congruence) ltac:(vm_compute; reflexivity)
           ltac:(vm_compute; reflexivity) ltac:(vm_compute; reflexivity)
           ltac:(lia) ltac:(lia) ltac:(vm_compute; reflexivity)).
Defined.

(** *** Opcodes built from nibbles *)

Lemma mk_opcode_fields c x y n :
  0 <= c < 16 -> 0 <= x < 16 -> 0 <= y < 16 -> 0 <= n < 16 ->
  let op := mk_opcode c x y n in
  0 <= op < 65536 /\ op / 4096 = c /\ (op / 256) mod 16 = x /\
  (op / 16) mod 16 = y /\ op mod 16 = n /\ op mod 256 = y * 16 + n /\
  op mod 4096 = x * 256 + y * 16 + n.
Proof.
  intros Hc Hx Hy Hn. cbv zeta. unfold mk_opcode.
  Z.div_mod_to_equations. lia.
Qed.

Lemma bind_Done {A B} (m : M A) (f : A -> M B) s a s' :
  m s = Done a s' -> bind m f s = f a s'.
Proof. intros H. unfold bind. rewrite H. reflexivity. Qed.

Lemma bind_Panicked {A B} (m : M A) (f : A -> M B) s e s' :
  m s = Panicked e s' -> bind m f s = Panicked e s'.
Proof. intros H. unfold bind. rewrite H. reflexivity. Qed.

(** Steps through [gets], [modify] and in-range arithmetic. *)
Ltac cstep :=
  match goal with
  | |- context [bind (gets ?f) ?g ?s] => change (bind (gets f) g s) with (g (f s) s)
  | |- context [bind (modify ?f) ?g ?s] => change (bind (modify f) g s) with (g tt (f s))
  | |- context [bind (arith ?o ?w ?r) ?g ?s] =>
      rewrite (bind_Done (arith o w r) g s r s)
        by (rewrite arith_in_range by (simpl; lia); reflexivity)
  | |- context [ret ?a ?s] => change (ret a s) with (Done a s)
  end; cbv beta.

(** Rewrites the decoded fields of [opcode s] into the nibbles. *)
Ltac decode Hop :=
  let F := fresh "F" in
  match type of Hop with
  | opcode ?s = mk_opcode ?c ?x ?y ?n =>
      unfold execute; cstep; rewrite Hop;
      destruct (mk_opcode_fields c x y n) as (F & ? & ? & ? & ? & ? & ?);
      [lia|lia|lia|lia|];
      destruct (decode_fields _ F) as (? & ? & ? & ? & ? & ?);
      repeat match goal with
        | H : Z.land _ _ = _ |- _ => rewrite H; clear H
        | H : Z.shiftr _ _ = _ |- _ => rewrite H; clear H
        end;
      repeat match goal with
        | H : mk_opcode _ _ _ _ / _ = _ |- _ => rewrite H; clear H
        | H : (mk_opcode _ _ _ _ / _) mod _ = _ |- _ => rewrite H; clear H
        | H : mk_opcode _ _ _ _ mod _ = _ |- _ => rewrite H; clear H
        end;
      cbv beta
  end.

Lemma read_v_ok k a s : v s !! Z.to_nat k = Some a -> read_v k s = Done a s.
Proof. intros H. unfold read_v, index. rewrite H. reflexivity. Qed.

Lemma write_v_ok k b s : (Z.to_nat k < length (v s))%nat ->
  write_v k b s = Done tt (set_v (<[Z.to_nat k := b]> (v s)) s).
Proof.
  intros H. unfold write_v, update, bind.
  replace (Z.to_nat k <? length (v s))%nat with true
    by (symmetry; apply Nat.ltb_lt; exact H).
  reflexivity.
Qed.

Lemma advance_pc_ok ovf s : 0 <= pc s + 2 < 65536 ->
  advance_pc ovf s = Done tt (set_pc (pc s + 2) s).
Proof.
  intros H. unfold advance_pc, bind, gets.
  rewrite arith_in_range by (simpl; lia). reflexivity.
Qed.

Lemma arith_wrapping w r : 0 <= w -> arith Wrapping w r = ret (r mod 2 ^ w).
Proof.
  intros Hw. unfold arith.
  destruct ((0 <=? r) && (r <? 2 ^ w)) eqn:E; [|reflexivity].
  rewrite Z.mod_small by lia. reflexivity.
Qed.

Ltac vlen := simpl; rewrite ?length_insert; simpl; lia.

(** One step of a register-level computation on a symbolic state. *)
Ltac mstep :=
  match goal with
  | |- context [bind (read_v ?k) ?f ?s] =>
      erewrite (bind_Done (read_v k) f s) by (apply read_v_ok; eassumption)
  | |- context [bind (write_v ?k ?b) ?f ?s] =>
      rewrite (bind_Done (write_v k b) f s _ _ (write_v_ok k b s ltac:(vlen)))
  | |- context [bind (advance_pc ?o) ?f ?s] =>
      rewrite (bind_Done (advance_pc o) f s _ _
                 (advance_pc_ok o s ltac:(simpl; lia)))
  | |- context [bind (if ?c then _ else _) _ _] => destruct c eqn:?
  end; cbv beta.

(** Reads of the register file after writes. *)
Ltac vlookup :=
  simpl;
  repeat first [ rewrite list_lookup_insert_eq by vlen
               | rewrite list_lookup_insert_ne by lia ].

Lemma land_255 r : Z.land r 255 = r mod 256.
Proof. change 255 with (Z.ones 8). rewrite Z.land_ones by lia. reflexivity. Qed.

(** *** Add with carry (0x8xy4) *)

(** C5 (as amended): 0x8xy4 with V[x] = a and V[y] = b sets V[x] to
    (a + b) mod 256; for a destination register x other than VF it sets VF
    to 1 if a + b > 255 and to 0 otherwise, and for x = 0xF the truncated
    sum is written after the flag, so VF ends as (a + b) mod 256. *)
Theorem add_with_carry ovf R gen_u8 (rng : R) (s : Chip8) x y a b :
  wf s -> 0 <= x < 16 -> 0 <= y < 16 ->
  0 <= a < 256 -> 0 <= b < 256 -> 0 <= pc s -> pc s + 2 < 65536 ->
  opcode s = mk_opcode 8 x y 4 ->
  v s !! Z.to_nat x = Some a -> v s !! Z.to_nat y = Some b ->
  exists s', execute ovf R gen_u8 rng s = Done rng s' /\
    v s' !! Z.to_nat x = Some ((a + b) mod 256) /\
    v s' !! 15%nat = Some (if x =? 15 then (a + b) mod 256
                           else if 255 <? a + b then 1 else 0).
Proof.
  intros (Hm & Hv & Hd & Hs) Hx Hy Ha Hb Hpc0 Hpc Hop Hva Hvb.
  destruct (Z.eq_dec x 15) as [->|Hx15].
  - decode Hop. simpl. repeat mstep;
      (eexists; split; [reflexivity|]); split; vlookup;
      rewrite ?land_255; reflexivity.
  - replace (x =? 15) with false by lia.
    decode Hop. simpl. repeat mstep;
      (eexists; split; [reflexivity|]); split; vlookup;
      rewrite ?land_255; reflexivity.
Qed.

Lemma add_with_carry_witness :
  exists s', execute Checked unit no_rng tt
               (with_regs [1; 0; 0; 0; 0; 0; 0; 0; 0; 0; 0; 0; 0; 0; 0; 200]
                          (mk_opcode 8 15 0 4)) = Done tt s' /\
    v s' !! Z.to_nat 15 = Some ((200 + 1) mod 256) /\
    v s' !! 15%nat = Some (if 15 =? 15 then (200 + 1) mod 256
                           else if 255 <? 200 + 1 then 1 else 0).
Proof.
  apply (add_with_carry Checked unit no_rng tt _ 15 0 200 1);
    solve [vm_compute; repeat split; reflexivity | lia | vm_compute; congruence].
Defined.

(** C5 counterexample: with x = 0xF the sum is written after the flag, so
    VF ends as (1 + 1) mod 256 = 2, not the carry 0 that the claim gives
    for a + b = 2 <= 255. *)
Lemma add_into_vf_counterexample :
  match cycles Checked 3 add_into_vf with
  | Done _ s => v s !! 15%nat
  | Panicked _ _ => None
  end = Some 2 /\ 2 <> (if 255 <? 1 + 1 then 1 else 0).
Proof. split; [vm_compute; reflexivity | discriminate]. Qed.

(** *** Subtract with borrow (0x8xy5) *)

(** C3 (as amended): for x <> y, 0x8xy5 with V[x] = a and V[y] = b sets
    V[x] to (a - b) mod 256; for a destination register x other than VF it
    sets VF to 1 if a > b and to 0 otherwise, and for x = 0xF the difference
    is written after the flag, so VF ends as (a - b) mod 256.  The cycle
    completes whenever a >= b, and also when a < b in a build where u8
    subtraction wraps. *)
Theorem subtract_borrow ovf R gen_u8 (rng : R) (s : Chip8) x y a b :
  wf s -> 0 <= x < 16 -> 0 <= y < 16 -> x <> y ->
  0 <= a < 256 -> 0 <= b < 256 -> 0 <= pc s -> pc s + 2 < 65536 ->
  opcode s = mk_opcode 8 x y 5 ->
  v s !! Z.to_nat x = Some a -> v s !! Z.to_nat y = Some b ->
  ovf = Wrapping \/ b <= a ->
  exists s', execute ovf R gen_u8 rng s = Done rng s' /\
    v s' !! 15%nat = Some (if x =? 15 then (a - b) mod 256
                           else if b <? a then 1 else 0) /\
    v s' !! Z.to_nat x = Some ((a - b) mod 256).
Proof.
  intros (Hm & Hv & Hd & Hs) Hx Hy Hxy Ha Hb Hpc0 Hpc Hop Hva Hvb Hovf.
  assert (Hd' : forall s0, arith ovf 8 (a - b) s0 = Done ((a - b) mod 256) s0).
  { intros s0. destruct Hovf as [->|Hle].
    - rewrite arith_wrapping by lia. reflexivity.
    - rewrite arith_in_range by (simpl; lia).
      rewrite Z.mod_small by lia. reflexivity. }
  destruct (Z.eq_dec x 15) as [->|Hx15].
  - decode Hop. simpl.
    repeat mstep; rewrite (bind_Done _ _ _ _ _ (Hd' _)); cbv beta; repeat mstep;
      (eexists; split; [reflexivity|]); split; vlookup; reflexivity.
  - replace (x =? 15) with false by lia.
    decode Hop. simpl.
    repeat mstep; rewrite (bind_Done _ _ _ _ _ (Hd' _)); cbv beta; repeat mstep;
      (eexists; split; [reflexivity|]); split; vlookup; reflexivity.
Qed.

Lemma subtract_borrow_witness :
  exists s', execute Wrapping unit no_rng tt
               (with_regs [3; 0; 0; 0; 0; 0; 0; 0; 0; 0; 0; 0; 0; 0; 0; 5]
                          (mk_opcode 8 15 0 5)) = Done tt s' /\
    v s' !! 15%nat = Some (if 15 =? 15 then (5 - 3) mod 256
                           else if 3 <? 5 then 1 else 0) /\
    v s' !! Z.to_nat 15 = Some ((5 - 3) mod 256).
Proof.
  apply (subtract_borrow Wrapping unit no_rng tt _ 15 0 5 3);
    solve [vm_compute; repeat split; reflexivity | lia | left; reflexivity
          | vm_compute; congruence].
Defined.

(** C3 counterexample: with x = 0xF the difference is written after the
    flag, so VF ends as 5 - 3 = 2, not the flag 1 that a > b gives. *)
Lemma sub_into_vf_counterexample :
  match cycles Checked 3 sub_into_vf with
  | Done _ s => v s !! 15%nat
  | Panicked _ _ => None
  end = Some 2 /\ 2 <> (if 3 <? 5 then 1 else 0).
Proof. split; [vm_compute; reflexivity | discriminate]. Qed.

(** *** Subroutine call and return *)

Lemma write_stack_ok k a s : (Z.to_nat k < length (stack s))%nat ->
  write_stack k a s = Done tt (set_stack (<[Z.to_nat k := a]> (stack s)) s).
Proof.
  intros H. unfold write_stack, update, bind.
  replace (Z.to_nat k <? length (stack s))%nat with true
    by (symmetry; apply Nat.ltb_lt; exact H).
  reflexivity.
Qed.

Lemma read_stack_ok k a s :
  stack s !! Z.to_nat k = Some a -> read_stack k s = Done a s.
Proof. intros H. unfold read_stack, index. rewrite H. reflexivity. Qed.

(** A call (0x2NNN) below the top of the stack pushes [pc] (not advanced),
    increments [sp] and jumps to NNN. *)
Lemma execute_call ovf R gen_u8 (rng : R) (s : Chip8) n1 n2 n3 :
  wf s -> 0 <= sp s < 16 ->
  0 <= n1 < 16 -> 0 <= n2 < 16 -> 0 <= n3 < 16 ->
  opcode s = mk_opcode 2 n1 n2 n3 ->
  execute ovf R gen_u8 rng s =
  Done rng (set_pc (n1 * 256 + n2 * 16 + n3)
             (set_sp (sp s + 1)
               (set_stack (<[Z.to_nat (sp s) := pc s]> (stack s)) s))).
Proof.
  intros (Hm & Hv & Hd & Hs) Hsp H1 H2 H3 Hop.
  decode Hop. simpl. cstep. cstep.
  rewrite (bind_Done _ _ _ _ _ (write_stack_ok (sp s) (pc s) s ltac:(lia))).
  cbv beta. repeat cstep. reflexivity.
Qed.

(** A return (0x00EE) with a non-empty stack pops the top entry into [pc]. *)
Lemma execute_return ovf R gen_u8 (rng : R) (s : Chip8) a :
  1 <= sp s <= 256 -> stack s !! Z.to_nat (sp s - 1) = Some a ->
  opcode s = mk_opcode 0 0 14 14 ->
  execute ovf R gen_u8 rng s = Done rng (set_pc a (set_sp (sp s - 1) s)).
Proof.
  intros Hsp Ha Hop.
  decode Hop. simpl. repeat cstep.
  rewrite (bind_Done _ _ _ a _
             (read_stack_ok (sp s - 1) a (set_sp (sp s - 1) s) Ha)).
  cbv beta. repeat cstep. reflexivity.
Qed.

(** A call (0x2NNN) at stack depth [d - 1] followed, with the stack and the
    stack pointer as the call left them, by a return (0x00EE) sets the
    program counter back to the address of the call instruction itself. *)
Lemma call_return_pc ovf R gen_u8 (rng : R) (s s2 : Chip8) n1 n2 n3 d :
  wf s -> 1 <= d <= 16 -> sp s = d - 1 ->
  0 <= n1 < 16 -> 0 <= n2 < 16 -> 0 <= n3 < 16 ->
  opcode s = mk_opcode 2 n1 n2 n3 ->
  exists s1, execute ovf R gen_u8 rng s = Done rng s1 /\
    (stack s2 = stack s1 -> sp s2 = sp s1 -> opcode s2 = mk_opcode 0 0 14 14 ->
     exists s3, execute ovf R gen_u8 rng s2 = Done rng s3 /\ pc s3 = pc s).
Proof.
  intros Hwf Hd1 Hsp H1 H2 H3 Hop.
  destruct Hwf as (Hm & Hv & Hd & Hs).
  rewrite (execute_call ovf R gen_u8 rng s n1 n2 n3) by (repeat split; auto; lia).
  eexists; split; [reflexivity|]. intros Hst Hsp2 Hop2.
  rewrite (execute_return ovf R gen_u8 rng s2 (pc s)); [eexists; split; reflexivity| | |exact Hop2].
  - rewrite Hsp2. simpl. lia.
  - rewrite Hst, Hsp2. simpl.
    replace (Z.to_nat (sp s + 1 - 1)) with (Z.to_nat (sp s)) by lia.
    apply list_lookup_insert_eq. lia.
Qed.

(** C1 (code_bug): after the call at 0x200 and the return, the program
    counter is 0x200, the call instruction itself, not 0x202. *)
Theorem call_return_lands_on_call :
  match cycles Checked 2 call_then_return with
  | Done _ s => Some (pc s)
  | Panicked _ _ => None
  end = Some 0x200 /\ 0x200 <> 0x200 + 2.
Proof. split; [vm_compute; reflexivity | discriminate]. Qed.

(** A call (0x2NNN) with the stack full fails the bounds check of the
    16-entry [stack] array, before any state change. *)
Lemma execute_call_full ovf R gen_u8 (rng : R) (s : Chip8) n1 n2 n3 :
  length (stack s) = 16%nat -> sp s = 16 ->
  0 <= n1 < 16 -> 0 <= n2 < 16 -> 0 <= n3 < 16 ->
  opcode s = mk_opcode 2 n1 n2 n3 ->
  execute ovf R gen_u8 rng s = Panicked (IndexOutOfBounds 16 16) s.
Proof.
  intros Hs Hsp H1 H2 H3 Hop.
  decode Hop. simpl. cstep. cstep.
  rewrite (bind_Panicked _ _ _ (IndexOutOfBounds 16 16) s); [reflexivity|].
  unfold write_stack, update, bind. rewrite Hsp, Hs. reflexivity.
Qed.

(** A return (0x00EE) with [sp = 0]: [self.sp -= 1] panics in a build with
    overflow checks; in a build without them [sp] wraps to 255 and the
    read of [stack[255]] fails the bounds check. *)
Lemma execute_return_empty R gen_u8 (rng : R) (s : Chip8) :
  length (stack s) = 16%nat -> sp s = 0 -> opcode s = mk_opcode 0 0 14 14 ->
  execute Checked R gen_u8 rng s = Panicked ArithmeticOverflow s /\
  execute Wrapping R gen_u8 rng s =
  Panicked (IndexOutOfBounds 255 16) (set_sp 255 s).
Proof.
  intros Hs Hsp Hop. split.
  - decode Hop. simpl. cstep. rewrite Hsp. reflexivity.
  - decode Hop. simpl. cstep. rewrite Hsp. unfold bind at 1.
    rewrite arith_wrapping by lia. unfold ret. cbv beta. cstep.
    unfold bind, read_stack, index. simpl. rewrite Hs.
    change ((0 - 1) mod 2 ^ 8) with 255.
    rewrite (lookup_ge_None_2 (stack s) (Z.to_nat 255)) by lia. reflexivity.
Qed.

(** C4 (as amended): a call (0x2NNN) with [sp = 16] panics on the bounds
    check of the 16-entry stack array (index 16) with the state unchanged;
    a return (0x00EE) with [sp = 0] panics on the arithmetic overflow of
    [sp - 1] with the state unchanged when overflow checks are on, and
    otherwise, after [sp] wraps to 255, on the bounds check of the stack
    array (index 255).  There is no dedicated stack error; in no case does
    the cycle complete. *)
Theorem stack_limits_panic R gen_u8 (rng : R) (sc sr : Chip8) n1 n2 n3 :
  length (stack sc) = 16%nat -> sp sc = 16 ->
  0 <= n1 < 16 -> 0 <= n2 < 16 -> 0 <= n3 < 16 ->
  opcode sc = mk_opcode 2 n1 n2 n3 ->
  length (stack sr) = 16%nat -> sp sr = 0 ->
  opcode sr = mk_opcode 0 0 14 14 ->
  (forall ovf, execute ovf R gen_u8 rng sc =
               Panicked (IndexOutOfBounds 16 16) sc) /\
  execute Checked R gen_u8 rng sr = Panicked ArithmeticOverflow sr /\
  execute Wrapping R gen_u8 rng sr =
  Panicked (IndexOutOfBounds 255 16) (set_sp 255 sr).
Proof.
  intros Hsc Hspc H1 H2 H3 Hopc Hsr Hspr Hopr. split.
  - intros ovf. apply (execute_call_full ovf R gen_u8 rng sc n1 n2 n3); assumption.
  - apply execute_return_empty; assumption.
Qed.

Lemma stack_limits_panic_witness :
  (forall ovf, execute ovf unit no_rng tt full_stack_call =
               Panicked (IndexOutOfBounds 16 16) full_stack_call) /\
  execute Checked unit no_rng tt empty_stack_return =
  Panicked ArithmeticOverflow empty_stack_return /\
  execute Wrapping unit no_rng tt empty_stack_return =
  Panicked (IndexOutOfBounds 255 16) (set_sp 255 empty_stack_return).
Proof.
  apply (stack_limits_panic unit no_rng tt full_stack_call empty_stack_return
           2 0 0); solve [reflexivity | lia].
Defined.

(** C4 counterexample: neither failure is a stack error of its own: the
    call at [sp = 16] and the return at [sp = 0] (in a build without
    overflow checks) both fail the array bounds check, the latter after the
    stack pointer has wrapped to 255. *)
Lemma stack_limits_counterexample :
  execute Checked unit no_rng tt full_stack_call =
  Panicked (IndexOutOfBounds 16 16) full_stack_call /\
  (exists s', execute Wrapping unit no_rng tt empty_stack_return =
              Panicked (IndexOutOfBounds 255 16) s' /\ sp s' = 255).
Proof.
  split; [vm_compute; reflexivity|].
  eexists; split; [vm_compute; reflexivity | reflexivity].
Qed.

(** *** Shifts (0x8xy6, 0x8xyE) *)

(** C2 (code_bug): the shifts set VF to the low nibble [V[y] & 0x0F] of the
    copied value: 0x8106 with V0 = 3 gives VF = 3 (bit 0 of 3 is 1), and
    0x810E with V0 = 0x80 gives VF = 0 (bit 7 of 0x80 is 1). *)
Theorem shift_flag_low_nibble :
  match cycles Checked 2 shift_right_3 with
  | Done _ s => (v s !! 1%nat, v s !! 15%nat)
  | Panicked _ _ => (None, None)
  end = (Some 1, Some 3) /\ Z.land 3 1 = 1 /\
  match cycles Checked 2 shift_left_80 with
  | Done _ s => (v s !! 1%nat, v s !! 15%nat)
  | Panicked _ _ => (None, None)
  end = (Some 0, Some 0) /\ Z.shiftr 0x80 7 = 1.
Proof.
  split; [vm_compute; reflexivity|]. split; [reflexivity|].
  split; [vm_compute; reflexivity|reflexivity].
Qed.

(** *** Loading a ROM *)

Lemma write_memory_ok k b s : (Z.to_nat k < length (memory s))%nat ->
  write_memory k b s = Done tt (set_memory (<[Z.to_nat k := b]> (memory s)) s).
Proof.
  intros H. unfold write_memory, update, bind.
  replace (Z.to_nat k <? length (memory s))%nat with true
    by (symmetry; apply Nat.ltb_lt; exact H).
  reflexivity.
Qed.

Lemma set_memory_same s : set_memory (memory s) s = s.
Proof. destruct s; reflexivity. Qed.

(** Copying [rom] to offset [0x200 + k] when it fits. *)
Lemma copy_rom_ok (rom : list Z) k s :
  length (memory s) = 4096%nat -> 0 <= k -> k + Z.of_nat (length rom) <= 3584 ->
  exists m', copy_rom rom k s = Done tt (set_memory m' s) /\
    length m' = 4096%nat /\
    (forall j, (j < length rom)%nat ->
               m' !! (512 + Z.to_nat k + j)%nat = rom !! j) /\
    (forall j, (j < 512 + Z.to_nat k \/ 512 + Z.to_nat k + length rom <= j)%nat ->
               m' !! j = memory s !! j).
Proof.
  revert k s. induction rom as [|b rest IH]; intros k s Hm Hk Hlen.
  - exists (memory s). simpl. rewrite set_memory_same.
    repeat split; auto. intros j Hj. lia.
  - cbn [copy_rom length] in Hlen |- *.
    rewrite (bind_Done _ _ _ _ _ (write_memory_ok (k + 512) b s ltac:(lia))).
    set (m1 := <[Z.to_nat (k + 512) := b]> (memory s)).
    assert (Hm1 : length m1 = 4096%nat) by (unfold m1; rewrite length_insert; lia).
    destruct (IH (k + 1) (set_memory m1 s) Hm1 ltac:(lia) ltac:(lia))
      as (m' & Hrun & Hlen' & Hin & Hout).
    exists m'. rewrite Hrun. split; [reflexivity|]. split; [exact Hlen'|]. split.
    + intros [|j] Hj.
      * rewrite Hout by lia. cbn [memory set_memory]. unfold m1.
        replace (512 + Z.to_nat k + 0)%nat with (Z.to_nat (k + 512)) by lia.
        apply list_lookup_insert_eq. lia.
      * change ((b :: rest) !! S j) with (rest !! j).
        rewrite <- (Hin j) by (cbn [length] in Hj; lia). f_equal. lia.
    + intros j Hj. rewrite Hout by (cbn [length] in Hj; lia).
      cbn [memory set_memory]. unfold m1.
      apply list_lookup_insert_ne. lia.
Qed.

Lemma copy_rom_app (l1 l2 : list Z) k s :
  copy_rom (l1 ++ l2) k s =
  bind (copy_rom l1 k) (fun _ => copy_rom l2 (k + Z.of_nat (length l1))) s.
Proof.
  revert k s. induction l1 as [|b l1 IH]; intros k s.
  - cbn [app copy_rom length]. unfold bind, ret. rewrite Z.add_0_r.
    destruct (copy_rom l2 k s); reflexivity.
  - cbn [app copy_rom length]. specialize (IH (k + 1)). unfold bind in IH |- *.
    destruct (write_memory (k + 512) b s) as [u s1|e s1]; [|reflexivity].
    rewrite IH. destruct (copy_rom l1 (k + 1) s1); [|reflexivity].
    f_equal. lia.
Qed.

Lemma write_memory_oob k b s : length (memory s) = 4096%nat -> 4096 <= k ->
  write_memory k b s = Panicked (IndexOutOfBounds k 4096) s.
Proof.
  intros Hm Hk. unfold write_memory, update, bind. rewrite Hm.
  replace (Z.to_nat k <? 4096)%nat with false
    by (symmetry; apply Nat.ltb_ge; lia).
  reflexivity.
Qed.

(** A ROM longer than the 3584 bytes of program space: the first 3584
    bytes are copied, then the write to [memory[4096]] panics. *)
Lemma copy_rom_overflow (rom : list Z) s :
  length (memory s) = 4096%nat -> (3584 < length rom)%nat ->
  exists m', copy_rom rom 0 s = Panicked (IndexOutOfBounds 4096 4096) (set_memory m' s) /\
    length m' = 4096%nat /\
    (forall j, (j < 3584)%nat -> m' !! (512 + j)%nat = rom !! j) /\
    (forall j, (j < 512)%nat -> m' !! j = memory s !! j).
Proof.
  intros Hm Hlen.
  rewrite <- (take_drop 3584 rom), copy_rom_app.
  assert (Ht : length (take 3584 rom) = 3584%nat) by (rewrite length_take; lia).
  destruct (copy_rom_ok (take 3584 rom) 0 s Hm ltac:(lia) ltac:(rewrite Ht; lia))
    as (m' & Hrun & Hlen' & Hin & Hout).
  destruct (drop 3584 rom) as [|b rest] eqn:Hd.
  { apply (f_equal length) in Hd. rewrite length_drop in Hd. cbn in Hd. lia. }
  exists m'. unfold bind. rewrite Hrun, Ht. cbn [copy_rom]. unfold bind.
  rewrite write_memory_oob by (cbn [memory set_memory]; lia || exact Hlen').
  split; [reflexivity|]. split; [exact Hlen'|]. split.
  - intros j Hj. rewrite lookup_app_l by lia. rewrite <- (Hin j) by lia.
    f_equal; lia.
  - intros j Hj. apply Hout. lia.
Qed.

(** C8 (amended): on a machine with its 4096 bytes of memory, loading a ROM
    of length L <= 3584 = 4096 - 0x200 copies the L bytes verbatim to
    0x200 .. 0x200 + L - 1, leaves the rest of memory as it was and sets
    [rom_loaded]; a longer ROM is not checked against the program space:
    its first 3584 bytes are copied, then the write to [memory[4096]]
    panics with an index-out-of-bounds error, and [rom_loaded] is left
    as it was. *)
Theorem load_rom_copies (rom : list Z) s :
  length (memory s) = 4096%nat ->
  ((length rom <= 3584)%nat ->
   exists m', load_rom (RomContents rom) s = Done tt (set_rom_loaded true (set_memory m' s)) /\
     length m' = 4096%nat /\
     (forall j, (j < length rom)%nat -> m' !! (512 + j)%nat = rom !! j) /\
     (forall j, (j < 512 \/ 512 + length rom <= j)%nat -> m' !! j = memory s !! j)) /\
  ((3584 < length rom)%nat ->
   exists m', load_rom (RomContents rom) s =
              Panicked (IndexOutOfBounds 4096 4096) (set_memory m' s) /\
     (forall j, (j < 3584)%nat -> m' !! (512 + j)%nat = rom !! j) /\
     (forall j, (j < 512)%nat -> m' !! j = memory s !! j)).
Proof.
  intros Hm. split; intros Hlen.
  - destruct (copy_rom_ok rom 0 s Hm ltac:(lia) ltac:(lia))
      as (m' & Hrun & Hlen' & Hin & Hout).
    exists m'. cbn [load_rom]. unfold bind. rewrite Hrun.
    split; [reflexivity|]. split; [exact Hlen'|]. split.
    + intros j Hj. rewrite <- (Hin j Hj). f_equal; lia.
    + intros j Hj. apply Hout. lia.
  - destruct (copy_rom_overflow rom s Hm Hlen) as (m' & Hrun & _ & Hin & Hout).
    exists m'. cbn [load_rom]. unfold bind. rewrite Hrun. auto.
Qed.

Lemma load_rom_copies_witness :
  length (memory new) = 4096%nat /\
  (((length [0x60; 0x05] <= 3584)%nat ->
    exists m', load_rom (RomContents [0x60; 0x05]) new =
               Done tt (set_rom_loaded true (set_memory m' new)) /\
      length m' = 4096%nat /\
      (forall j, (j < length [0x60; 0x05])%nat -> m' !! (512 + j)%nat = [0x60; 0x05] !! j) /\
      (forall j, (j < 512 \/ 512 + length [0x60; 0x05] <= j)%nat ->
                 m' !! j = memory new !! j)) /\
   ((3584 < length [0x60; 0x05])%nat ->
    exists m', load_rom (RomContents [0x60; 0x05]) new =
               Panicked (IndexOutOfBounds 4096 4096) (set_memory m' new) /\
      (forall j, (j < 3584)%nat -> m' !! (512 + j)%nat = [0x60; 0x05] !! j) /\
      (forall j, (j < 512)%nat -> m' !! j = memory new !! j))).
Proof.
  assert (H : length (memory new) = 4096%nat) by (vm_compute; reflexivity).
  split; [exact H | apply (load_rom_copies [0x60; 0x05] new H)].
Defined.

(** C8 counterexample: a ROM of 3585 bytes makes [load_rom] panic with an
    index-out-of-bounds error on [memory[4096]] (there is no capacity
    error in the code), after its first bytes were written to memory. *)
Lemma load_rom_too_long_counterexample :
  match load_rom (RomContents (repeat 1 3585)) new with
  | Panicked (IndexOutOfBounds 4096 4096) s =>
      memory s !! 512%nat = Some 1 /\ memory s !! 4095%nat = Some 1 /\
      rom_loaded s = false
  | _ => False
  end.
Proof. vm_compute. repeat split. Qed.

(** *** Drawing (0xDxyn) *)

Lemma drawn_drawn s d1 c1 d2 c2 :
  drawn (drawn s d1 c1) d2 c2 = drawn s d2 (c1 || c2).
Proof.
  unfold drawn. destruct s, c1, c2; cbn; rewrite ?list_insert_insert_eq; reflexivity.
Qed.

Lemma drawn_none s : drawn s (display s) false = s.
Proof. unfold drawn. destruct s; reflexivity. Qed.

Lemma read_display_ok k b s :
  display s !! Z.to_nat k = Some b -> read_display k s = Done b s.
Proof. intros H. unfold read_display, index. rewrite H. reflexivity. Qed.

Lemma write_display_ok k b s : (Z.to_nat k < length (display s))%nat ->
  write_display k b s =
  Done tt (set_display (<[Z.to_nat k := b]> (display s)) s).
Proof.
  intros H. unfold write_display, update, bind.
  replace (Z.to_nat k <? length (display s))%nat with true
    by (symmetry; apply Nat.ltb_lt; exact H).
  reflexivity.
Qed.

Lemma toggle_ok d k : (Z.to_nat k < length d)%nat ->
  exists b, d !! Z.to_nat k = Some b /\
            toggle d k = (<[Z.to_nat k := negb b]> d, b).
Proof.
  intros H. destruct (lookup_lt_is_Some_2 d (Z.to_nat k) H) as [b Hb].
  exists b. unfold toggle. rewrite Hb. destruct b; auto.
Qed.

Lemma toggle_all_cons d k ks d1 c1 : toggle d k = (d1, c1) ->
  toggle_all d (k :: ks) = (fst (toggle_all d1 ks), c1 || snd (toggle_all d1 ks)).
Proof. intros E. cbn. rewrite E. destruct (toggle_all d1 ks); reflexivity. Qed.

Lemma toggle_all_app d l1 l2 :
  toggle_all d (l1 ++ l2) =
  (fst (toggle_all (fst (toggle_all d l1)) l2),
   snd (toggle_all d l1) || snd (toggle_all (fst (toggle_all d l1)) l2)).
Proof.
  induction l1 as [|k l1 IH] in d |- *; cbn [app toggle_all].
  - cbn [fst snd]. destruct (toggle_all d l2); reflexivity.
  - destruct (toggle d k) as [d1 c1]. rewrite IH.
    destruct (toggle_all d1 l1) as [d2 c2]. cbn.
    destruct (toggle_all d2 l2) as [d3 c3]. cbn. rewrite orb_assoc. reflexivity.
Qed.

Lemma length_toggle_all d ks : length (fst (toggle_all d ks)) = length d.
Proof.
  induction ks as [|k ks IH] in d |- *; cbn [toggle_all]; [reflexivity|].
  destruct (toggle d k) as [d1 c1] eqn:E.
  specialize (IH d1). destruct (toggle_all d1 ks) as [d2 c2]. cbn in IH |- *.
  rewrite IH. unfold toggle in E.
  destruct (d !! Z.to_nat k) as [[]|]; inversion E; rewrite ?length_insert; reflexivity.
Qed.

Section Toggle.

Variable N : nat.

Lemma toggle_all_notin d ks j :
  length d = N -> Forall (fun k => (Z.to_nat k < N)%nat) ks ->
  ~ In j (map Z.to_nat ks) -> fst (toggle_all d ks) !! j = d !! j.
Proof.
  induction ks as [|k ks IH] in d |- *; intros Hd Hks Hj; [reflexivity|].
  apply Forall_cons_iff in Hks as [Hk Hks'].
  destruct (toggle_ok d k ltac:(lia)) as (b & Hb & E).
  rewrite (toggle_all_cons _ _ _ _ _ E). cbn [fst].
  cbn [map In] in Hj.
  rewrite IH by (rewrite ?length_insert; tauto).
  apply list_lookup_insert_ne. tauto.
Qed.

Lemma toggle_all_in d ks j :
  length d = N -> Forall (fun k => (Z.to_nat k < N)%nat) ks ->
  NoDup (map Z.to_nat ks) ->
  In j (map Z.to_nat ks) -> fst (toggle_all d ks) !! j = negb <$> d !! j.
Proof.
  induction ks as [|k ks IH] in d |- *; intros Hd Hks Hnd Hj; [destruct Hj|].
  apply Forall_cons_iff in Hks as [Hk Hks'].
  cbn [map] in Hnd. apply NoDup_cons in Hnd as [Hnotin Hnd'].
  rewrite list_elem_of_In in Hnotin.
  destruct (toggle_ok d k ltac:(lia)) as (b & Hb & E).
  rewrite (toggle_all_cons _ _ _ _ _ E). cbn [fst].
  cbn [map In] in Hj. destruct Hj as [<-|Hj].
  - rewrite toggle_all_notin by (rewrite ?length_insert; auto).
    rewrite list_lookup_insert_eq by lia. rewrite Hb. reflexivity.
  - rewrite IH by (rewrite ?length_insert; auto).
    rewrite list_lookup_insert_ne; [reflexivity|].
    intros E'. apply Hnotin. rewrite E'. exact Hj.
Qed.

Lemma toggle_all_collision d ks :
  length d = N -> Forall (fun k => (Z.to_nat k < N)%nat) ks ->
  NoDup (map Z.to_nat ks) ->
  snd (toggle_all d ks) = true <->
  exists k, In k ks /\ d !! Z.to_nat k = Some true.
Proof.
  induction ks as [|k ks IH] in d |- *; intros Hd Hks Hnd.
  - cbn. split; [discriminate|]. intros (? & [] & _).
  - apply Forall_cons_iff in Hks as [Hk Hks'].
    cbn [map] in Hnd. apply NoDup_cons in Hnd as [Hnotin Hnd'].
  rewrite list_elem_of_In in Hnotin.
    destruct (toggle_ok d k ltac:(lia)) as (b & Hb & E).
    rewrite (toggle_all_cons _ _ _ _ _ E). cbn [snd].
    assert (Hne : forall k', In k' ks -> Z.to_nat k' <> Z.to_nat k).
    { intros k' Hk' E'. apply Hnotin. rewrite <- E'. apply in_map. exact Hk'. }
    rewrite orb_true_iff, IH by (rewrite ?length_insert; auto).
    split.
    + intros [->|(k' & Hk' & Hv)].
      * exists k. split; [left; reflexivity | exact Hb].
      * exists k'. split; [right; exact Hk'|].
        rewrite list_lookup_insert_ne in Hv by (apply not_eq_sym, Hne, Hk').
        exact Hv.
    + intros (k' & [<-|Hk'] & Hv).
      * left. congruence.
      * right. exists k'. split; [exact Hk'|].
        rewrite list_lookup_insert_ne by (apply not_eq_sym, Hne, Hk'). exact Hv.
Qed.

Lemma toggle_all_twice d ks :
  length d = N -> Forall (fun k => (Z.to_nat k < N)%nat) ks ->
  NoDup (map Z.to_nat ks) ->
  fst (toggle_all (fst (toggle_all d ks)) ks) = d.
Proof.
  intros Hd Hks Hnd.
  assert (Hd1 : length (fst (toggle_all d ks)) = N)
    by (rewrite length_toggle_all; exact Hd).
  apply list_eq. intros j.
  destruct (in_dec Nat.eq_dec j (map Z.to_nat ks)) as [Hj|Hj].
  - rewrite (toggle_all_in _ _ _ Hd1 Hks Hnd Hj), (toggle_all_in _ _ _ Hd Hks Hnd Hj).
    destruct (d !! j); cbn; rewrite ?negb_involutive; reflexivity.
  - rewrite (toggle_all_notin _ _ _ Hd1 Hks Hj), (toggle_all_notin _ _ _ Hd Hks Hj).
    reflexivity.
Qed.

Lemma toggle_all_turned_on d ks :
  length d = N -> Forall (fun k => (Z.to_nat k < N)%nat) ks ->
  NoDup (map Z.to_nat ks) ->
  (exists k, In k ks /\ fst (toggle_all d ks) !! Z.to_nat k = Some true) <->
  (exists j, d !! j = Some false /\ fst (toggle_all d ks) !! j = Some true).
Proof.
  intros Hd Hks Hnd. split.
  - intros (k & Hk & Hv). exists (Z.to_nat k). split; [|exact Hv].
    rewrite toggle_all_in in Hv by (auto; apply in_map; exact Hk).
    destruct (d !! Z.to_nat k) as [[]|]; cbn in Hv; congruence.
  - intros (j & Hf & Hv).
    destruct (in_dec Nat.eq_dec j (map Z.to_nat ks)) as [Hj|Hj].
    + apply in_map_iff in Hj as (k & <- & Hk). exists k. auto.
    + rewrite toggle_all_notin in Hv by auto. congruence.
Qed.

End Toggle.

Lemma row_cells_in xc yr data sb fuel c :
  0 <= xc -> In c (row_cells xc yr data sb fuel) ->
  yr * 64 + xc + sb <= c < yr * 64 + 64.
Proof.
  induction fuel as [|f IH] in sb |- *; intros Hx Hc; cbn [row_cells] in Hc;
    [destruct Hc|].
  unfold DISPLAY_WIDTH in *.
  destruct (64 <=? xc + sb) eqn:Ew; [destruct Hc|]. apply Z.leb_gt in Ew.
  destruct (negb _); [destruct Hc as [<-|Hc]; [lia|]|];
    specialize (IH (sb + 1) Hx Hc); lia.
Qed.

Lemma row_cells_nodup xc yr data sb fuel :
  0 <= xc -> 0 <= yr -> 0 <= sb -> NoDup (map Z.to_nat (row_cells xc yr data sb fuel)).
Proof.
  induction fuel as [|f IH] in sb |- *; intros Hx Hy Hs; cbn [row_cells];
    [constructor|].
  unfold DISPLAY_WIDTH in *.
  destruct (64 <=? xc + sb) eqn:Ew; [constructor|].
  destruct (negb _); [|apply IH; lia].
  cbn [map]. apply NoDup_cons. split; [|apply IH; lia].
  rewrite list_elem_of_In, in_map_iff. intros (c & Ec & Hc).
  apply row_cells_in in Hc; [|lia]. lia.
Qed.

Lemma rows_cells_in mem ir xc yc row fuel c :
  0 <= xc < 64 -> 0 <= yc -> 0 <= row ->
  In c (rows_cells mem ir xc yc row fuel) -> (yc + row) * 64 <= c < 2048.
Proof.
  induction fuel as [|f IH] in row |- *; intros Hx Hy Hr Hc;
    cbn [rows_cells] in Hc; [destruct Hc|].
  unfold DISPLAY_HEIGTH in *.
  destruct (32 <=? yc + row) eqn:Eh; [destruct Hc|]. apply Z.leb_gt in Eh.
  apply in_app_or in Hc as [Hc|Hc].
  - apply row_cells_in in Hc; lia.
  - specialize (IH (row + 1) Hx Hy ltac:(lia) Hc). lia.
Qed.

Lemma rows_cells_nodup mem ir xc yc row fuel :
  0 <= xc < 64 -> 0 <= yc -> 0 <= row ->
  NoDup (map Z.to_nat (rows_cells mem ir xc yc row fuel)).
Proof.
  induction fuel as [|f IH] in row |- *; intros Hx Hy Hr; cbn [rows_cells];
    [constructor|].
  unfold DISPLAY_HEIGTH in *.
  destruct (32 <=? yc + row) eqn:Eh; [constructor|].
  rewrite map_app. apply NoDup_app. split; [apply row_cells_nodup; lia|].
  split; [|apply IH; lia].
  intros a Ha1 Ha2. rewrite list_elem_of_In, in_map_iff in Ha1, Ha2.
  destruct Ha1 as (c1 & <- & H1). destruct Ha2 as (c2 & E & H2).
  apply row_cells_in in H1; [|lia].
  apply rows_cells_in in H2; lia.
Qed.

Lemma display_drawn s d c : display (drawn s d c) = d.
Proof. reflexivity. Qed.
Lemma v_drawn s d c : v (drawn s d c) = if c then <[15%nat := 1]> (v s) else v s.
Proof. reflexivity. Qed.
Lemma memory_drawn s d c : memory (drawn s d c) = memory s.
Proof. reflexivity. Qed.
Lemma i_drawn s d c : i (drawn s d c) = i s.
Proof. reflexivity. Qed.

Lemma length_v_drawn s d c : length (v (drawn s d c)) = length (v s).
Proof. rewrite v_drawn. destruct c; rewrite ?length_insert; reflexivity. Qed.

(** One sprite pixel that is set, on display cell [k]. *)
Lemma draw_cell_ok k b s :
  (Z.to_nat k < length (display s))%nat -> length (v s) = 16%nat ->
  display s !! Z.to_nat k = Some b ->
  (let* on := read_display k in
   if on then let* _ := write_display k false in write_v 0xF 1
   else write_display k true) s =
  Done tt (drawn s (<[Z.to_nat k := negb b]> (display s)) b).
Proof.
  intros Hk Hv Hb.
  rewrite (bind_Done _ _ _ _ _ (read_display_ok k b s Hb)). cbv beta.
  destruct b.
  - rewrite (bind_Done _ _ _ _ _ (write_display_ok k false s Hk)). cbv beta.
    rewrite write_v_ok by (simpl; lia). unfold drawn. destruct s; reflexivity.
  - rewrite write_display_ok by exact Hk. unfold drawn. destruct s; reflexivity.
Qed.

Lemma draw_row_bits_ok ovf xc yr data sb fuel s :
  length (display s) = 2048%nat -> length (v s) = 16%nat ->
  0 <= xc < 64 -> 0 <= yr < 32 -> 0 <= sb -> sb + Z.of_nat fuel <= 8 ->
  draw_row_bits ovf xc yr data sb fuel s =
  Done tt (drawn s (fst (toggle_all (display s) (row_cells xc yr data sb fuel)))
                   (snd (toggle_all (display s) (row_cells xc yr data sb fuel)))).
Proof.
  induction fuel as [|f IH] in sb, s |- *; intros Hd Hv Hx Hy Hs Hf;
    cbn [draw_row_bits row_cells toggle_all fst snd].
  - rewrite drawn_none. reflexivity.
  - cstep. unfold DISPLAY_WIDTH.
    destruct (64 <=? xc + sb) eqn:Ew.
    { cbn [toggle_all fst snd]. rewrite drawn_none. reflexivity. }
    apply Z.leb_gt in Ew.
    destruct (negb _) eqn:Eb.
    + set (k := xc + sb + yr * 64).
      destruct (toggle_ok (display s) k ltac:(unfold k; lia)) as (b & Hb & E).
      rewrite (toggle_all_cons _ _ _ _ _ E). cbn [fst snd].
      rewrite (bind_Done _ _ _ _ _ (draw_cell_ok k b s ltac:(unfold k; lia) Hv Hb)).
      rewrite IH by (rewrite ?display_drawn, ?length_v_drawn, ?length_insert; lia).
      rewrite drawn_drawn, display_drawn. reflexivity.
    + rewrite (bind_Done (ret tt) _ s tt s eq_refl). rewrite IH by lia. reflexivity.
Qed.

Lemma read_memory_ok k b s :
  memory s !! Z.to_nat k = Some b -> read_memory k s = Done b s.
Proof. intros H. unfold read_memory, index. rewrite H. reflexivity. Qed.

Lemma draw_rows_ok ovf xc yc row fuel s :
  length (display s) = 2048%nat -> length (v s) = 16%nat ->
  length (memory s) = 4096%nat ->
  0 <= xc < 64 -> 0 <= yc < 32 -> 0 <= row -> row + Z.of_nat fuel <= 16 ->
  0 <= i s -> i s + row + Z.of_nat fuel <= 4096 ->
  draw_rows ovf xc yc row fuel s =
  Done tt (drawn s
    (fst (toggle_all (display s) (rows_cells (memory s) (i s) xc yc row fuel)))
    (snd (toggle_all (display s) (rows_cells (memory s) (i s) xc yc row fuel)))).
Proof.
  induction fuel as [|f IH] in row, s |- *; intros Hd Hv Hm Hx Hy Hr Hf Hi0 Hi;
    cbn [draw_rows rows_cells toggle_all fst snd].
  - rewrite drawn_none. reflexivity.
  - cstep. unfold DISPLAY_HEIGTH.
    destruct (32 <=? yc + row) eqn:Eh.
    { cbn [toggle_all fst snd]. rewrite drawn_none. reflexivity. }
    apply Z.leb_gt in Eh.
    cstep.
    destruct (lookup_lt_is_Some_2 (memory s) (Z.to_nat (i s + row)) ltac:(lia))
      as [b Hb].
    rewrite (bind_Done _ _ _ _ _ (read_memory_ok _ _ s Hb)). cbv beta.
    rewrite Hb. cbn [default].
    rewrite (bind_Done _ _ _ _ _ (draw_row_bits_ok ovf xc (yc + row) b 0 8 s
                                    Hd Hv Hx ltac:(lia) ltac:(lia) ltac:(lia))).
    rewrite IH by (rewrite ?display_drawn, ?length_v_drawn, ?memory_drawn,
                     ?i_drawn, ?length_toggle_all; lia).
    rewrite drawn_drawn, display_drawn, memory_drawn, i_drawn, toggle_all_app.
    reflexivity.
Qed.

Lemma execute_draw ovf R gen_u8 (rng : R) s x y n vx vy :
  wf s -> 0 <= x < 16 -> 0 <= y < 16 -> 0 <= n < 16 ->
  opcode s = mk_opcode 13 x y n ->
  v s !! Z.to_nat x = Some vx -> v s !! Z.to_nat y = Some vy ->
  0 <= i s -> i s + n <= 4096 -> 0 <= pc s -> pc s + 2 < 65536 ->
  execute ovf R gen_u8 rng s =
  Done rng (set_pc (pc s + 2) (set_draw true
    (drawn (set_v (<[15%nat := 0]> (v s)) s)
       (fst (toggle_all (display s)
               (rows_cells (memory s) (i s) (vx mod 64) (vy mod 32) 0 (Z.to_nat n))))
       (snd (toggle_all (display s)
               (rows_cells (memory s) (i s) (vx mod 64) (vy mod 32) 0 (Z.to_nat n))))))).
Proof.
  intros (Hm & Hv & Hd & Hs) Hx Hy Hn Hop Hvx Hvy Hi0 Hi Hpc0 Hpc.
  decode Hop. simpl. repeat mstep. unfold DISPLAY_WIDTH, DISPLAY_HEIGTH.
  rewrite (bind_Done _ _ _ _ _
             (draw_rows_ok ovf (vx mod 64) (vy mod 32) 0 (Z.to_nat n)
                (set_v (<[Z.to_nat 15 := 0]> (v s)) s)
                Hd ltac:(simpl; rewrite length_insert; lia) Hm
                ltac:(apply Z.mod_pos_bound; lia) ltac:(apply Z.mod_pos_bound; lia)
                ltac:(lia) ltac:(lia) Hi0 ltac:(simpl; lia))).
  cstep.
  erewrite (bind_Done (advance_pc ovf)); [|apply advance_pc_ok; unfold drawn; simpl; lia].
  reflexivity.
Qed.

(** C6 (amended): for x and y other than VF, with the sprite bytes
    I .. I + n - 1 in memory and room for two [pc] increments, executing
    0xDxyn twice in succession restores the display exactly, leaves VF at
    0 or 1, and leaves it at 1 exactly when the first draw turned some
    pixel on. *)
Theorem draw_twice_restores ovf R gen_u8 (rng : R) s x y n :
  wf s -> 0 <= x < 16 -> 0 <= y < 16 -> 0 <= n < 16 -> x <> 15 -> y <> 15 ->
  opcode s = mk_opcode 13 x y n ->
  0 <= i s -> i s + n <= 4096 -> 0 <= pc s -> pc s + 4 < 65536 ->
  exists s1 s2,
    execute ovf R gen_u8 rng s = Done rng s1 /\
    execute ovf R gen_u8 rng s1 = Done rng s2 /\
    display s2 = display s /\
    (v s2 !! 15%nat = Some 0 \/ v s2 !! 15%nat = Some 1) /\
    (v s2 !! 15%nat = Some 1 <->
     exists k, display s !! k = Some false /\ display s1 !! k = Some true).
Proof.
  intros Hwf Hx Hy Hn Hx15 Hy15 Hop Hi0 Hi Hpc0 Hpc.
  pose proof Hwf as (Hm & Hv & Hd & Hs).
  destruct (lookup_lt_is_Some_2 (v s) (Z.to_nat x) ltac:(lia)) as [vx Hvx].
  destruct (lookup_lt_is_Some_2 (v s) (Z.to_nat y) ltac:(lia)) as [vy Hvy].
  pose proof (Z.mod_pos_bound vx 64 ltac:(lia)) as Hxc.
  pose proof (Z.mod_pos_bound vy 32 ltac:(lia)) as Hyc.
  set (cs := rows_cells (memory s) (i s) (vx mod 64) (vy mod 32) 0 (Z.to_nat n)).
  assert (Hcs : Forall (fun k => (Z.to_nat k < 2048)%nat) cs).
  { apply Forall_forall. intros c Hc. apply list_elem_of_In in Hc. apply rows_cells_in in Hc; lia. }
  assert (Hnd : NoDup (map Z.to_nat cs)) by (apply rows_cells_nodup; lia).
  set (D1 := fst (toggle_all (display s) cs)).
  set (C1 := snd (toggle_all (display s) cs)).
  set (s1 := set_pc (pc s + 2) (set_draw true
               (drawn (set_v (<[15%nat := 0]> (v s)) s) D1 C1))).
  set (D2 := fst (toggle_all D1 cs)).
  set (C2 := snd (toggle_all D1 cs)).
  set (s2 := set_pc (pc s1 + 2) (set_draw true
               (drawn (set_v (<[15%nat := 0]> (v s1)) s1) D2 C2))).
  assert (HD1 : length D1 = 2048%nat)
    by (unfold D1; rewrite length_toggle_all; exact Hd).
  assert (Hv1 : v s1 = if C1 then <[15%nat := 1]> (<[15%nat := 0]> (v s))
                       else <[15%nat := 0]> (v s)) by reflexivity.
  assert (Hv1x : forall z, 0 <= z < 16 -> z <> 15 -> v s1 !! Z.to_nat z = v s !! Z.to_nat z).
  { intros z Hz Hz15. rewrite Hv1.
    destruct C1; rewrite ?list_lookup_insert_ne by lia; reflexivity. }
  assert (Hlv1 : length (v s1) = 16%nat)
    by (rewrite Hv1; destruct C1; rewrite ?length_insert; exact Hv).
  exists s1, s2. split; [|split; [|split; [|split]]].
  - rewrite (execute_draw ovf R gen_u8 rng s x y n vx vy); auto; lia.
  - rewrite (execute_draw ovf R gen_u8 rng s1 x y n vx vy); try reflexivity.
    all: try lia.
    + split; [exact Hm | split; [exact Hlv1 | split; [exact HD1 | exact Hs]]].
    + exact Hop.
    + rewrite Hv1x by lia. exact Hvx.
    + rewrite Hv1x by lia. exact Hvy.
    + simpl. lia.
    + simpl. lia.
    + simpl. lia.
    + simpl. lia.
  - change (display s2) with D2. unfold D2, D1.
    apply (toggle_all_twice 2048); assumption.
  - change (v s2) with (if C2 then <[15%nat := 1]> (<[15%nat := 0]> (v s1))
                        else <[15%nat := 0]> (v s1)).
    destruct C2; rewrite list_lookup_insert_eq by (rewrite ?length_insert; lia);
      [right | left]; reflexivity.
  - change (v s2) with (if C2 then <[15%nat := 1]> (<[15%nat := 0]> (v s1))
                        else <[15%nat := 0]> (v s1)).
    change (display s1) with D1.
    transitivity (C2 = true).
    { destruct C2; rewrite list_lookup_insert_eq by (rewrite ?length_insert; lia);
        split; congruence. }
    unfold C2. rewrite (toggle_all_collision 2048) by assumption.
    unfold D1. apply (toggle_all_turned_on 2048); assumption.
Qed.

Lemma draw_twice_restores_witness :
  exists s1 s2,
    execute Checked unit no_rng tt draw_glyph = Done tt s1 /\
    execute Checked unit no_rng tt s1 = Done tt s2 /\
    display s2 = display draw_glyph /\
    (v s2 !! 15%nat = Some 0 \/ v s2 !! 15%nat = Some 1) /\
    (v s2 !! 15%nat = Some 1 <->
     exists k, display draw_glyph !! k = Some false /\ display s1 !! k = Some true).
Proof.
  apply (draw_twice_restores Checked unit no_rng tt draw_glyph 0 1 5);
    solve [vm_compute; repeat split; reflexivity | lia | vm_compute; congruence].
Defined.

(** C6 counterexample: with x = 0xF the first draw resets VF, which moves
    the second draw: from a blank display, VF := 5 and 0xDF01 twice leave
    pixels 0 and 5 lit instead of restoring the blank display. *)
Lemma draw_at_vf_counterexample :
  display draw_at_vf !! 0%nat = Some false /\
  match cycles Checked 3 draw_at_vf with
  | Done _ s => display s !! 0%nat = Some true /\ display s !! 5%nat = Some true
  | Panicked _ _ => False
  end.
Proof. split; vm_compute; [reflexivity | split; reflexivity]. Qed.


(** *** Other opcodes of [emulate_cycle] *)


Lemma bind_ret {A B} (a : A) (f : A -> M B) s : bind (ret a) f s = f a s.
Proof. reflexivity. Qed.

Ltac ostep :=
  first [ mstep
        | match goal with
          | |- context [bind (read_v ?k) ?f ?s] =>
              erewrite (bind_Done (read_v k) f s)
                by (apply read_v_ok; vlookup; first [eassumption | reflexivity])
          end; cbv beta
        | rewrite bind_ret; cbv beta | cstep ].

Ltac finish_state s :=
  repeat match goal with
    | H : negb ?c = true |- _ => apply negb_true_iff in H
    | H : negb ?c = false |- _ => apply negb_false_iff in H
    end;
  repeat match goal with
    | H : ?c = true |- context [?c] => rewrite H
    | H : ?c = false |- context [?c] => rewrite H
    end;
  unfold ret; f_equal; destruct s;
  unfold set_pc, set_opcode, set_v, set_i, set_display, set_draw, set_sp,
    set_stack, set_memory, set_rom_loaded; cbn; f_equal; try lia.

Ltac opcode_run c x y n s :=
  let Hop := fresh "Hop" in
  assert (Hop : opcode (set_opcode (mk_opcode c x y n) s) = mk_opcode c x y n)
    by reflexivity;
  decode Hop; simpl; repeat ostep.

(** Skips on an immediate byte (0x3xNN, 0x4xNN): with V[x] = a, 0x3xNN
    adds 4 to the program counter when a = NN and 2 otherwise, and 0x4xNN
    the other way round; nothing else changes. *)
Theorem skip_on_byte ovf R gen_u8 (rng : R) s x y n a :
  wf s -> 0 <= x < 16 -> 0 <= y < 16 -> 0 <= n < 16 ->
  v s !! Z.to_nat x = Some a -> 0 <= pc s -> pc s + 4 < 65536 ->
  execute ovf R gen_u8 rng (set_opcode (mk_opcode 3 x y n) s) =
    Done rng (set_pc (pc s + (if a =? y * 16 + n then 4 else 2))
                     (set_opcode (mk_opcode 3 x y n) s)) /\
  execute ovf R gen_u8 rng (set_opcode (mk_opcode 4 x y n) s) =
    Done rng (set_pc (pc s + (if a =? y * 16 + n then 2 else 4))
                     (set_opcode (mk_opcode 4 x y n) s)).
Proof.
  intros (Hm & Hv & Hd & Hs) Hx Hy Hn Ha Hpc0 Hpc. split.
  - opcode_run 3 x y n s; finish_state s.
  - opcode_run 4 x y n s; finish_state s.
Qed.

(** Skips on two registers (0x5xy0, 0x9xy0): with V[x] = a and V[y] = b,
    0x5xy0 adds 4 to the program counter when a = b and 2 otherwise, and
    0x9xy0 the other way round; nothing else changes. *)
Theorem skip_on_registers ovf R gen_u8 (rng : R) s x y a b :
  wf s -> 0 <= x < 16 -> 0 <= y < 16 ->
  v s !! Z.to_nat x = Some a -> v s !! Z.to_nat y = Some b ->
  0 <= pc s -> pc s + 4 < 65536 ->
  execute ovf R gen_u8 rng (set_opcode (mk_opcode 5 x y 0) s) =
    Done rng (set_pc (pc s + (if a =? b then 4 else 2))
                     (set_opcode (mk_opcode 5 x y 0) s)) /\
  execute ovf R gen_u8 rng (set_opcode (mk_opcode 9 x y 0) s) =
    Done rng (set_pc (pc s + (if a =? b then 2 else 4))
                     (set_opcode (mk_opcode 9 x y 0) s)).
Proof.
  intros (Hm & Hv & Hd & Hs) Hx Hy Ha Hb Hpc0 Hpc. split.
  - opcode_run 5 x y 0 s; finish_state s.
  - opcode_run 9 x y 0 s; finish_state s.
Qed.

(** Immediate load and add (0x6xNN, 0x7xNN): 0x6xNN sets V[x] := NN;
    0x7xNN sets V[x] := (V[x] + NN) mod 256 in both build profiles, without
    touching VF; both advance the program counter by 2. *)
Theorem load_add_immediate ovf R gen_u8 (rng : R) s x y n a :
  wf s -> 0 <= x < 16 -> 0 <= y < 16 -> 0 <= n < 16 ->
  v s !! Z.to_nat x = Some a -> 0 <= a -> 0 <= pc s -> pc s + 2 < 65536 ->
  execute ovf R gen_u8 rng (set_opcode (mk_opcode 6 x y n) s) =
    Done rng (set_pc (pc s + 2) (set_v (<[Z.to_nat x := y * 16 + n]> (v s))
                                  (set_opcode (mk_opcode 6 x y n) s))) /\
  execute ovf R gen_u8 rng (set_opcode (mk_opcode 7 x y n) s) =
    Done rng (set_pc (pc s + 2)
                (set_v (<[Z.to_nat x := (a + (y * 16 + n)) mod 256]> (v s))
                   (set_opcode (mk_opcode 7 x y n) s))).
Proof.
  intros (Hm & Hv & Hd & Hs) Hx Hy Hn Ha Ha0 Hpc0 Hpc. split.
  - opcode_run 6 x y n s; finish_state s.
  - opcode_run 7 x y n s. rewrite land_255. finish_state s.
Qed.

(** Register copy and bitwise operations (0x8xy0 to 0x8xy3): V[x] := V[y],
    V[x] | V[y], V[x] & V[y] or V[x] ^ V[y]; VF is not touched (unless x = 0xF)
    and the program counter advances by 2. *)
Theorem logic_ops ovf R gen_u8 (rng : R) s x y a b :
  wf s -> 0 <= x < 16 -> 0 <= y < 16 ->
  v s !! Z.to_nat x = Some a -> v s !! Z.to_nat y = Some b ->
  0 <= pc s -> pc s + 2 < 65536 ->
  (forall n r, (n, r) = (0, b) \/ (n, r) = (1, Z.lor a b) \/
               (n, r) = (2, Z.land a b) \/ (n, r) = (3, Z.lxor a b) ->
   execute ovf R gen_u8 rng (set_opcode (mk_opcode 8 x y n) s) =
     Done rng (set_pc (pc s + 2) (set_v (<[Z.to_nat x := r]> (v s))
                                   (set_opcode (mk_opcode 8 x y n) s)))).
Proof.
  intros (Hm & Hv & Hd & Hs) Hx Hy Ha Hb Hpc0 Hpc n r Hnr.
  destruct Hnr as [E|[E|[E|E]]]; injection E as -> ->.
  - opcode_run 8 x y 0 s; finish_state s.
  - opcode_run 8 x y 1 s; finish_state s.
  - opcode_run 8 x y 2 s; finish_state s.
  - opcode_run 8 x y 3 s; finish_state s.
Qed.

(** Reverse subtraction (0x8xy7) with V[x] = a and V[y] = b: VF is first
    set to 1 when b > a and 0 otherwise, then V[x] := (b - a) mod 256; with
    overflow checks on and b < a the u8 subtraction panics after VF := 0. *)
Theorem reverse_subtract ovf R gen_u8 (rng : R) s x y a b :
  wf s -> 0 <= x < 16 -> 0 <= y < 16 ->
  v s !! Z.to_nat x = Some a -> v s !! Z.to_nat y = Some b ->
  0 <= a < 256 -> 0 <= b < 256 -> 0 <= pc s -> pc s + 2 < 65536 ->
  (ovf = Wrapping \/ a <= b ->
   execute ovf R gen_u8 rng (set_opcode (mk_opcode 8 x y 7) s) =
     Done rng (set_pc (pc s + 2)
       (set_v (<[Z.to_nat x := (b - a) mod 256]>
                 (<[15%nat := if a <? b then 1 else 0]> (v s)))
              (set_opcode (mk_opcode 8 x y 7) s)))) /\
  (ovf = Checked -> b < a ->
   execute ovf R gen_u8 rng (set_opcode (mk_opcode 8 x y 7) s) =
     Panicked ArithmeticOverflow
       (set_v (<[15%nat := 0]> (v s)) (set_opcode (mk_opcode 8 x y 7) s))).
Proof.
  intros (Hm & Hv & Hd & Hs) Hx Hy Ha Hb Ha0 Hb0 Hpc0 Hpc. split.
  - intros Hovf.
    assert (Hd' : forall s0, arith ovf 8 (b - a) s0 = Done ((b - a) mod 256) s0).
    { intros s0. destruct Hovf as [->|Hle].
      - rewrite arith_wrapping by lia. reflexivity.
      - rewrite arith_in_range by (simpl; lia).
        rewrite Z.mod_small by lia. reflexivity. }
    opcode_run 8 x y 7 s;
      try (rewrite (bind_Done _ _ _ _ _ (Hd' _)); cbv beta; repeat ostep);
      finish_state s.
    all: rewrite Z.mod_small by lia; reflexivity.
  - intros -> Hlt.
    opcode_run 8 x y 7 s; [lia|].
    unfold bind at 1, arith.
    replace ((0 <=? b - a) && (b - a <? 2 ^ 8)) with false by lia.
    finish_state s.
Qed.

(** Shifts (0x8xy6, 0x8xyE): V[x] := V[y], then VF := V[y] & 0x0F, then
    V[x] is shifted right by one, or left by one and truncated to 8 bits;
    for x = 0xF the value shifted is the one just written to VF. *)
Theorem shift_ops ovf R gen_u8 (rng : R) s x y b :
  wf s -> 0 <= x < 16 -> 0 <= y < 16 -> v s !! Z.to_nat y = Some b ->
  0 <= pc s -> pc s + 2 < 65536 ->
  execute ovf R gen_u8 rng (set_opcode (mk_opcode 8 x y 6) s) =
    Done rng (set_pc (pc s + 2)
      (set_v (<[Z.to_nat x := Z.shiftr (if x =? 15 then Z.land b 15 else b) 1]>
                (<[15%nat := Z.land b 15]> (<[Z.to_nat x := b]> (v s))))
             (set_opcode (mk_opcode 8 x y 6) s))) /\
  execute ovf R gen_u8 rng (set_opcode (mk_opcode 8 x y 14) s) =
    Done rng (set_pc (pc s + 2)
      (set_v (<[Z.to_nat x := Z.land (Z.shiftl (if x =? 15 then Z.land b 15 else b) 1) 255]>
                (<[15%nat := Z.land b 15]> (<[Z.to_nat x := b]> (v s))))
             (set_opcode (mk_opcode 8 x y 14) s))).
Proof.
  intros (Hm & Hv & Hd & Hs) Hx Hy Hb Hpc0 Hpc.
  assert (Hx' : (Z.to_nat x < 16)%nat) by lia.
  assert (Hb' : <[Z.to_nat x := b]> (v s) !! Z.to_nat x = Some b)
    by (apply list_lookup_insert_eq; lia).
  destruct (Z.eqb_spec x 15) as [->|Hx15]; split.
  - opcode_run 8 15 y 6 s; finish_state s.
  - opcode_run 8 15 y 14 s; finish_state s.
  - opcode_run 8 x y 6 s; finish_state s.
  - opcode_run 8 x y 14 s; finish_state s.
Qed.

(** Jumps and the index register: 0x1NNN sets the program counter to NNN;
    0xBNNN sets it to NNN + V0 (at most 0xFFF + 0xFF, so no overflow);
    0xANNN sets I := NNN and advances the program counter by 2. *)
Theorem jumps_and_index ovf R gen_u8 (rng : R) s x y n a :
  wf s -> 0 <= x < 16 -> 0 <= y < 16 -> 0 <= n < 16 ->
  v s !! 0%nat = Some a -> 0 <= a < 256 ->
  execute ovf R gen_u8 rng (set_opcode (mk_opcode 1 x y n) s) =
    Done rng (set_pc (x * 256 + y * 16 + n) (set_opcode (mk_opcode 1 x y n) s)) /\
  execute ovf R gen_u8 rng (set_opcode (mk_opcode 11 x y n) s) =
    Done rng (set_pc (x * 256 + y * 16 + n + a) (set_opcode (mk_opcode 11 x y n) s)) /\
  (0 <= pc s -> pc s + 2 < 65536 ->
   execute ovf R gen_u8 rng (set_opcode (mk_opcode 10 x y n) s) =
     Done rng (set_pc (pc s + 2)
       (set_i (x * 256 + y * 16 + n) (set_opcode (mk_opcode 10 x y n) s)))).
Proof.
  intros (Hm & Hv & Hd & Hs) Hx Hy Hn Ha Ha0. split; [|split].
  - opcode_run 1 x y n s; finish_state s.
  - opcode_run 11 x y n s; finish_state s.
  - intros Hpc0 Hpc. opcode_run 10 x y n s; finish_state s.
Qed.

(** Random byte (0xCxNN): the generator is drawn once, V[x] := r & NN for
    the byte r it yields, and the program counter advances by 2; the value
    written is at most NN. *)
Theorem random_byte ovf R gen_u8 (rng rng' : R) s x y n r :
  wf s -> 0 <= x < 16 -> 0 <= y < 16 -> 0 <= n < 16 ->
  gen_u8 rng = (r, rng') -> 0 <= r < 256 ->
  0 <= pc s -> pc s + 2 < 65536 ->
  execute ovf R gen_u8 rng (set_opcode (mk_opcode 12 x y n) s) =
    Done rng' (set_pc (pc s + 2)
      (set_v (<[Z.to_nat x := Z.land r (y * 16 + n)]> (v s))
             (set_opcode (mk_opcode 12 x y n) s))) /\
  0 <= Z.land r (y * 16 + n) <= y * 16 + n.
Proof.
  intros (Hm & Hv & Hd & Hs) Hx Hy Hn Hr Hr0 Hpc0 Hpc. split.
  - opcode_run 12 x y n s. rewrite Hr. repeat ostep. finish_state s.
  - split.
    + apply Z.land_nonneg. lia.
    + rewrite <- (Z2N.id r), <- (Z2N.id (y * 16 + n)) by lia.
      rewrite <- N2Z.inj_land. apply N2Z.inj_le. apply N.land_le_r.
Qed.

Lemma clear_loop_ok f k s :
  (k + f <= length (display s))%nat ->
  clear_loop (Z.of_nat k) f s =
    Done tt (set_display (take k (display s) ++ repeat false f
                          ++ drop (k + f) (display s)) s).
Proof.
  revert k s. induction f as [|f IH]; intros k s Hk.
  - cbn [clear_loop repeat app]. rewrite Nat.add_0_r, take_drop.
    unfold ret. f_equal. destruct s; reflexivity.
  - cbn [clear_loop].
    rewrite (bind_Done _ _ _ _ _ (write_display_ok (Z.of_nat k) false s ltac:(rewrite Nat2Z.id; lia))).
    rewrite Nat2Z.id.
    replace (Z.of_nat k + 1) with (Z.of_nat (S k)) by lia.
    rewrite IH by (cbn [display set_display]; rewrite length_insert; lia).
    f_equal. cbn [display set_display].
    destruct (lookup_lt_is_Some_2 (display s) k) as [b Hb]; [lia|].
    rewrite (take_S_r _ _ false) by (apply list_lookup_insert_eq; lia).
    rewrite take_insert_ge by lia.
    rewrite drop_insert_lt by lia.
    rewrite <- app_assoc. cbn [app repeat].
    replace (S k + f)%nat with (k + S f)%nat by lia.
    destruct s; reflexivity.
Qed.

(** Clear screen (0x00E0) on a well-formed machine: all 2048 pixels are
    turned off, the draw flag is set and the program counter advances by 2;
    registers, memory and stack are untouched. *)
Theorem clear_screen ovf R gen_u8 (rng : R) s :
  wf s -> 0 <= pc s -> pc s + 2 < 65536 ->
  execute ovf R gen_u8 rng (set_opcode (mk_opcode 0 0 14 0) s) =
    Done rng (set_pc (pc s + 2) (set_draw true
      (set_display (repeat false 2048) (set_opcode (mk_opcode 0 0 14 0) s)))).
Proof.
  intros (Hm & Hv & Hd & Hs) Hpc0 Hpc.
  assert (Hop : opcode (set_opcode (mk_opcode 0 0 14 0) s) = mk_opcode 0 0 14 0)
    by reflexivity.
  match goal with |- _ = ?r => remember r as RHS eqn:HR end.
  decode Hop. remember (Z.to_nat MAX_DISPLAY_SIZE) as N eqn:HN. simpl.
  erewrite (bind_Done (clear_loop _ N));
    [|apply (clear_loop_ok N 0)].
  2:{ cbn [display set_opcode]. subst N. rewrite Hd. apply Nat.leb_le. reflexivity. }
  rewrite take_0, drop_ge
    by (cbn [display set_opcode]; rewrite Hd; subst N; apply Nat.leb_le; reflexivity).
  rewrite app_nil_r. cbn [app]. repeat ostep. subst RHS N. finish_state s.
Qed.

Lemma land_pow2 k d : 0 <= k -> Z.land (2 ^ k) d = if Z.testbit d k then 2 ^ k else 0.
Proof.
  intros Hk. apply Z.bits_inj'. intros m Hm.
  rewrite Z.land_spec, Z.pow2_bits_eqb by lia.
  destruct (Z.eqb_spec k m) as [<-|Hne]; cbn [andb].
  - destruct (Z.testbit d k);
      [rewrite Z.pow2_bits_true by lia|rewrite Z.testbit_0_l]; reflexivity.
  - destruct (Z.testbit d m), (Z.testbit d k);
      rewrite ?Z.pow2_bits_false, ?Z.testbit_0_l by lia; reflexivity.
Qed.

Lemma sprite_bit_set b d : 0 <= b < 8 ->
  Z.land (Z.shiftr 0x80 b) d <> 0 <-> Z.testbit d (7 - b) = true.
Proof.
  intros Hb. rewrite Z.shiftr_div_pow2 by lia.
  replace (0x80 / 2 ^ b) with (2 ^ (7 - b)).
  2:{ change 0x80 with (2 ^ 7). rewrite <- Z.pow_sub_r by lia. reflexivity. }
  rewrite land_pow2 by lia.
  pose proof (Z.pow_pos_nonneg 2 (7 - b) ltac:(lia) ltac:(lia)).
  destruct (Z.testbit d (7 - b)); split; congruence || lia.
Qed.

Lemma row_cells_iff xc yr data sb fuel c :
  0 <= xc ->
  In c (row_cells xc yr data sb fuel) <->
  exists b, sb <= b < sb + Z.of_nat fuel /\ xc + b < 64 /\
            c = xc + b + yr * 64 /\ Z.land (Z.shiftr 0x80 b) data <> 0.
Proof.
  induction fuel as [|f IH] in sb |- *; intros Hx; cbn [row_cells].
  - split; [intros []|intros (b & Hb & _); lia].
  - unfold DISPLAY_WIDTH.
    destruct (64 <=? xc + sb) eqn:Ew.
    { apply Z.leb_le in Ew. split; [intros []|intros (b & Hb & Hb2 & _); lia]. }
    apply Z.leb_gt in Ew.
    destruct (negb (Z.land (Z.shiftr 0x80 sb) data =? 0)) eqn:Eb.
    + apply negb_true_iff, Z.eqb_neq in Eb.
      cbn [In]. rewrite IH by exact Hx. split.
      * intros [<-|(b & Hb & Hb2 & -> & Hbit)].
        -- exists sb. repeat split; first [assumption | lia].
        -- exists b. repeat split; first [assumption | lia].
      * intros (b & Hb & Hb2 & -> & Hbit).
        destruct (Z.eq_dec b sb) as [->|Hne]; [left; lia|].
        right. exists b. repeat split; first [assumption | lia].
    + apply negb_false_iff, Z.eqb_eq in Eb.
      rewrite IH by exact Hx. split.
      * intros (b & Hb & Hb2 & -> & Hbit). exists b. repeat split; first [assumption | lia].
      * intros (b & Hb & Hb2 & -> & Hbit).
        destruct (Z.eq_dec b sb) as [->|Hne]; [congruence|].
        exists b. repeat split; first [assumption | lia].
Qed.

Lemma rows_cells_iff mem ir xc yc row fuel c :
  0 <= xc -> 0 <= yc ->
  In c (rows_cells mem ir xc yc row fuel) <->
  exists r b, row <= r < row + Z.of_nat fuel /\ yc + r < 32 /\ 0 <= b < 8 /\
    xc + b < 64 /\ c = xc + b + (yc + r) * 64 /\
    Z.land (Z.shiftr 0x80 b) (default 0 (mem !! Z.to_nat (ir + r))) <> 0.
Proof.
  induction fuel as [|f IH] in row |- *; intros Hx Hy; cbn [rows_cells].
  - split; [intros []|intros (r & b & Hr & _); lia].
  - unfold DISPLAY_HEIGTH.
    destruct (32 <=? yc + row) eqn:Eh.
    { apply Z.leb_le in Eh. split; [intros []|intros (r & b & Hr & Hr2 & _); lia]. }
    apply Z.leb_gt in Eh.
    rewrite in_app_iff, row_cells_iff, IH by lia. split.
    + intros [(b & Hb & Hb2 & -> & Hbit)|(r & b & Hr & Hr2 & Hb & Hb2 & -> & Hbit)].
      * exists row, b. cbn [Z.of_nat] in Hb. repeat split; first [assumption | lia].
      * exists r, b. repeat split; first [assumption | lia].
    + intros (r & b & Hr & Hr2 & Hb & Hb2 & -> & Hbit).
      destruct (Z.eq_dec r row) as [->|Hne].
      * left. exists b. repeat split; first [assumption | lia].
      * right. exists r, b. repeat split; first [assumption | lia].
Qed.

(** A pixel of the display lies under the sprite and its sprite bit is set. *)
Lemma rows_cells_pixel mem ir xc yc n col row :
  0 <= xc < 64 -> 0 <= yc < 32 -> 0 <= n -> 0 <= col < 64 -> 0 <= row < 32 ->
  In (row * 64 + col) (rows_cells mem ir xc yc 0 (Z.to_nat n)) <->
  xc <= col < xc + 8 /\ yc <= row < yc + n /\
  Z.testbit (default 0 (mem !! Z.to_nat (ir + (row - yc)))) (7 - (col - xc)) = true.
Proof.
  intros Hx Hy Hn Hc Hr. rewrite rows_cells_iff by lia. split.
  - intros (r & b & Hr' & Hr2 & Hb & Hb2 & E & Hbit).
    assert (row = yc + r /\ col = xc + b) as [-> ->] by lia.
    split; [lia|split; [lia|]].
    replace (yc + r - yc) with r by lia. replace (xc + b - xc) with b by lia.
    apply sprite_bit_set; assumption.
  - intros (Hcx & Hry & Hbit).
    exists (row - yc), (col - xc). repeat split; try lia.
    apply sprite_bit_set; [lia|]. exact Hbit.
Qed.

Lemma rows_cells_bounded mem ir xc yc n :
  0 <= xc < 64 -> 0 <= yc ->
  Forall (fun k => (Z.to_nat k < 2048)%nat) (rows_cells mem ir xc yc 0 n).
Proof.
  intros Hx Hy. apply Forall_forall. intros c Hc.
  apply list_elem_of_In in Hc. apply rows_cells_in in Hc; lia.
Qed.

Lemma in_map_to_nat mem ir xc yc n c :
  0 <= xc < 64 -> 0 <= yc -> 0 <= c ->
  In (Z.to_nat c) (map Z.to_nat (rows_cells mem ir xc yc 0 n)) <->
  In c (rows_cells mem ir xc yc 0 n).
Proof.
  intros Hx Hy Hc. rewrite in_map_iff. split.
  - intros (c' & E & Hc'). pose proof Hc' as Hb. apply rows_cells_in in Hb; try lia.
    replace c with c' by lia. exact Hc'.
  - intros Hc'. exists c. auto.
Qed.

(** Drawing (0xDxyn) with the sprite within memory completes.  Every pixel
    of the 64x32 display covered by a set bit of the sprite (placed at
    V[x] mod 64, V[y] mod 32, clipped at the right and bottom edges, not
    wrapped) is inverted, every other pixel is unchanged, and VF ends 0 or 1,
    1 exactly when some inverted pixel was on before. *)
Theorem draw_pixels ovf R gen_u8 (rng : R) s x y n vx vy :
  wf s -> 0 <= x < 16 -> 0 <= y < 16 -> 0 <= n < 16 ->
  v s !! Z.to_nat x = Some vx -> v s !! Z.to_nat y = Some vy ->
  0 <= i s -> i s + n <= 4096 -> 0 <= pc s -> pc s + 2 < 65536 ->
  exists s', execute ovf R gen_u8 rng (set_opcode (mk_opcode 13 x y n) s) = Done rng s' /\
    (forall col row, 0 <= col < 64 -> 0 <= row < 32 ->
      let on_sprite :=
        vx mod 64 <= col < vx mod 64 + 8 /\ vy mod 32 <= row < vy mod 32 + n /\
        Z.testbit (default 0 (memory s !! Z.to_nat (i s + (row - vy mod 32))))
                  (7 - (col - vx mod 64)) = true in
      (on_sprite -> display s' !! Z.to_nat (row * 64 + col) =
                    negb <$> display s !! Z.to_nat (row * 64 + col)) /\
      (~ on_sprite -> display s' !! Z.to_nat (row * 64 + col) =
                      display s !! Z.to_nat (row * 64 + col))) /\
    (v s' !! 15%nat = Some 0 \/ v s' !! 15%nat = Some 1) /\
    (v s' !! 15%nat = Some 1 <->
     exists col row, 0 <= col < 64 /\ 0 <= row < 32 /\
       vx mod 64 <= col < vx mod 64 + 8 /\ vy mod 32 <= row < vy mod 32 + n /\
       Z.testbit (default 0 (memory s !! Z.to_nat (i s + (row - vy mod 32))))
                 (7 - (col - vx mod 64)) = true /\
       display s !! Z.to_nat (row * 64 + col) = Some true).
Proof.
  intros Hwf Hx Hy Hn Hvx Hvy Hi0 Hi Hpc0 Hpc.
  pose proof Hwf as (Hm & Hv & Hd & Hs).
  pose proof (Z.mod_pos_bound vx 64 ltac:(lia)) as Hxc.
  pose proof (Z.mod_pos_bound vy 32 ltac:(lia)) as Hyc.
  set (cs := rows_cells (memory s) (i s) (vx mod 64) (vy mod 32) 0 (Z.to_nat n)).
  assert (Hcs : Forall (fun k => (Z.to_nat k < 2048)%nat) cs)
    by (apply rows_cells_bounded; lia).
  assert (Hnd : NoDup (map Z.to_nat cs)) by (apply rows_cells_nodup; lia).
  eexists. split.
  { rewrite (execute_draw ovf R gen_u8 rng (set_opcode (mk_opcode 13 x y n) s)
               x y n vx vy); try reflexivity; auto. }
  cbn [display v set_pc set_draw set_opcode drawn set_display set_v].
  split; [|split].
  - intros col row Hcol Hrow.
    match goal with |- (?P -> _) /\ _ =>
      assert (Hin : In (Z.to_nat (row * 64 + col)) (map Z.to_nat cs) <-> P) end.
    { unfold cs. rewrite in_map_to_nat by lia.
      apply rows_cells_pixel; lia. }
    split; intros Hon.
    + apply (toggle_all_in 2048); auto. apply Hin, Hon.
    + apply (toggle_all_notin 2048); auto. intros Hc. apply Hon, Hin, Hc.
  - destruct (snd (toggle_all _ _));
      rewrite list_lookup_insert_eq by (rewrite ?length_insert; lia); auto.
  - transitivity (snd (toggle_all (display s) cs) = true).
    { destruct (snd (toggle_all _ _));
        rewrite list_lookup_insert_eq by (rewrite ?length_insert; lia);
        split; congruence. }
    rewrite (toggle_all_collision 2048) by auto. split.
    + intros (k & Hk & Hon).
      pose proof Hk as Hb. apply rows_cells_in in Hb; [|lia..].
      exists (k mod 64), (k / 64).
      assert (Ek : k = k / 64 * 64 + k mod 64) by (rewrite Z.mul_comm; apply Z.div_mod; lia).
      pose proof (Z.mod_pos_bound k 64 ltac:(lia)).
      assert (0 <= k / 64 < 32) by (split; [apply Z.div_pos|apply Z.div_lt_upper_bound]; lia).
      rewrite Ek in Hk. unfold cs in Hk.
      rewrite rows_cells_pixel in Hk by lia.
      rewrite <- Ek. repeat split; try lia; tauto.
    + intros (col & row & Hcol & Hrow & H1 & H2 & Hbit & Hon).
      exists (row * 64 + col). split; [|exact Hon].
      unfold cs. apply rows_cells_pixel; auto; lia.
Qed.

Lemma draw_rows_past_memory ovf xc yc row r fuel s :
  length (display s) = 2048%nat -> length (v s) = 16%nat ->
  length (memory s) = 4096%nat ->
  0 <= xc < 64 -> 0 <= yc < 32 -> 0 <= row -> row + Z.of_nat r + Z.of_nat fuel <= 16 ->
  yc + row + Z.of_nat r < 32 -> 0 <= i s -> i s + row + Z.of_nat r = 4096 ->
  draw_rows ovf xc yc row (r + S fuel) s =
  Panicked (IndexOutOfBounds 4096 4096) (drawn s
    (fst (toggle_all (display s) (rows_cells (memory s) (i s) xc yc row r)))
    (snd (toggle_all (display s) (rows_cells (memory s) (i s) xc yc row r)))).
Proof.
  induction r as [|r IH] in row, s |- *; intros Hd Hv Hm Hx Hy Hr Hf Hyr Hi0 Hi.
  - cbn [Nat.add draw_rows rows_cells toggle_all fst snd]. rewrite drawn_none.
    cstep. unfold DISPLAY_HEIGTH.
    replace (32 <=? yc + row) with false by lia.
    cstep. unfold bind at 1, read_memory, index.
    replace (memory s !! Z.to_nat (i s + row)) with (@None Z)
      by (symmetry; apply lookup_ge_None_2; lia).
    rewrite Hm. unfold panic. replace (i s + row) with 4096 by lia. reflexivity.
  - cbn [Nat.add draw_rows rows_cells].
    cstep. unfold DISPLAY_HEIGTH.
    replace (32 <=? yc + row) with false by lia.
    cstep.
    destruct (lookup_lt_is_Some_2 (memory s) (Z.to_nat (i s + row)) ltac:(lia))
      as [b Hb].
    rewrite (bind_Done _ _ _ _ _ (read_memory_ok _ _ s Hb)). cbv beta.
    rewrite Hb. cbn [default].
    rewrite (bind_Done _ _ _ _ _ (draw_row_bits_ok ovf xc (yc + row) b 0 8 s
                                    Hd Hv Hx ltac:(lia) ltac:(lia) ltac:(lia))).
    rewrite IH by (rewrite ?display_drawn, ?length_v_drawn, ?memory_drawn,
                     ?i_drawn, ?length_toggle_all; lia).
    rewrite drawn_drawn, display_drawn, memory_drawn, i_drawn, toggle_all_app.
    reflexivity.
Qed.

(** A sprite read past the end of memory: when row r of the sprite (r < n)
    is the first one at address I + r = 4096 and is still on screen, the draw
    panics with the memory bounds check, after the rows before it have
    been drawn and before the program counter is advanced. *)
Theorem draw_past_memory ovf R gen_u8 (rng : R) s x y n vx vy r :
  wf s -> 0 <= x < 16 -> 0 <= y < 16 -> 0 <= n < 16 ->
  v s !! Z.to_nat x = Some vx -> v s !! Z.to_nat y = Some vy ->
  0 <= r < n -> i s + r = 4096 -> vy mod 32 + r < 32 ->
  exists s', execute ovf R gen_u8 rng (set_opcode (mk_opcode 13 x y n) s) =
    Panicked (IndexOutOfBounds 4096 4096) s' /\
    pc s' = pc s /\
    display s' = fst (toggle_all (display s)
      (rows_cells (memory s) (i s) (vx mod 64) (vy mod 32) 0 (Z.to_nat r))).
Proof.
  intros (Hm & Hv & Hd & Hs) Hx Hy Hn Hvx Hvy Hr Hi Hyr.
  pose proof (Z.mod_pos_bound vx 64 ltac:(lia)) as Hxc.
  pose proof (Z.mod_pos_bound vy 32 ltac:(lia)) as Hyc.
  assert (Hop : opcode (set_opcode (mk_opcode 13 x y n) s) = mk_opcode 13 x y n)
    by reflexivity.
  decode Hop. simpl. repeat ostep. unfold DISPLAY_WIDTH, DISPLAY_HEIGTH.
  replace (Z.to_nat n) with (Z.to_nat r + S (Z.to_nat (n - r - 1)))%nat by lia.
  erewrite (bind_Panicked (draw_rows ovf _ _ 0 _));
    [|apply draw_rows_past_memory; simpl; rewrite ?length_insert; lia].
  eexists. split; [reflexivity|]. split; reflexivity.
Qed.



(** *** [reset] *)

Section Fill.

Variable get : Chip8 -> list Z.
Variable put : list Z -> Chip8 -> Chip8.
Hypothesis get_put : forall l s, get (put l s) = l.
Hypothesis put_put : forall l1 l2 s, put l2 (put l1 s) = put l2 s.
Hypothesis put_get : forall s, put (get s) s = s.

Lemma update_put k b s : (Z.to_nat k < length (get s))%nat ->
  bind (update (get s) k b) (fun l => modify (put l)) s =
  Done tt (put (<[Z.to_nat k := b]> (get s)) s).
Proof.
  intros H. unfold update, bind.
  replace (Z.to_nat k <? length (get s))%nat with true
    by (symmetry; apply Nat.ltb_lt; exact H).
  reflexivity.
Qed.

Lemma zero_loop_ok write f k s :
  (forall k b s, write k b s = bind (update (get s) k b) (fun l => modify (put l)) s) ->
  (k + f <= length (get s))%nat ->
  zero_loop write (Z.of_nat k) f s =
    Done tt (put (take k (get s) ++ repeat 0 f ++ drop (k + f) (get s)) s).
Proof.
  intros Hw. revert k s. induction f as [|f IH]; intros k s Hk.
  - cbn [zero_loop repeat app]. rewrite Nat.add_0_r, take_drop, put_get. reflexivity.
  - cbn [zero_loop].
    rewrite (bind_Done _ _ _ _ _
               (eq_trans (Hw _ _ _) (update_put (Z.of_nat k) 0 s ltac:(lia)))).
    rewrite Nat2Z.id.
    replace (Z.of_nat k + 1) with (Z.of_nat (S k)) by lia.
    rewrite IH by (rewrite get_put, length_insert; lia).
    rewrite put_put, get_put. f_equal. f_equal.
    rewrite (take_S_r _ _ 0) by (apply list_lookup_insert_eq; lia).
    rewrite take_insert_ge, drop_insert_lt by lia.
    rewrite <- app_assoc. cbn [app repeat].
    replace (S k + f)%nat with (k + S f)%nat by lia. reflexivity.
Qed.

End Fill.

Lemma fontset_loop_ok f k s :
  (k + f <= 80)%nat -> length (memory s) = 4096%nat ->
  fontset_loop (Z.of_nat k) f s =
    Done tt (set_memory (take k (memory s) ++ take f (drop k CHIP8_FONTSET)
                         ++ drop (k + f) (memory s)) s).
Proof.
  revert k s. induction f as [|f IH]; intros k s Hk Hm.
  - cbn [fontset_loop]. rewrite take_0, app_nil_l, Nat.add_0_r, take_drop, set_memory_same.
    reflexivity.
  - cbn [fontset_loop].
    destruct (lookup_lt_is_Some_2 CHIP8_FONTSET k ltac:(simpl; lia)) as [b Hb].
    unfold bind at 1, index. rewrite Nat2Z.id, Hb. cbv beta.
    change (ret b s) with (Done b s). cbv iota beta.
    rewrite (bind_Done _ _ _ _ _ (write_memory_ok (Z.of_nat k) b s ltac:(lia))).
    rewrite Nat2Z.id.
    replace (Z.of_nat k + 1) with (Z.of_nat (S k)) by lia.
    rewrite IH by (simpl; rewrite ?length_insert; lia).
    cbn [memory set_memory]. f_equal.
    rewrite (take_S_r _ _ b) by (apply list_lookup_insert_eq; lia).
    rewrite take_insert_ge, drop_insert_lt by lia.
    rewrite <- app_assoc. cbn [app].
    rewrite (drop_S _ _ _ Hb). cbn [take].
    replace (S k + f)%nat with (k + S f)%nat by lia.
    destruct s; reflexivity.
Qed.

Ltac fill_len :=
  unfold MAX_MEMORY_SIZE, V_SIZE, MAX_STACK_SIZE, MAX_DISPLAY_SIZE,
    DISPLAY_WIDTH, DISPLAY_HEIGTH;
  cbn [memory v stack display set_rom_loaded set_opcode set_memory set_v set_i
       set_pc set_display set_draw set_stack set_sp length];
  rewrite ?length_app, ?length_take, ?length_drop, ?repeat_length; cbn [length]; lia.

Ltac flat :=
  unfold set_rom_loaded, set_opcode, set_memory, set_v, set_i, set_pc,
    set_display, set_draw, set_stack, set_sp, set_timers;
  cbn [rom_loaded opcode memory v i pc display draw stack sp timers
       delay_timer sound_timer].

(** [reset] on any well-formed machine yields exactly the machine of [new]:
    memory cleared and reloaded with the font set, registers, I, stack, stack
    pointer, timers and flags cleared, display blank and PC = 0x200. *)
Theorem reset_is_new s : wf s -> reset s = Done tt new.
Proof.
  destruct s as [rl op m r ir p d dr st sp0 t].
  intros (Hm & Hv & Hd & Hs); cbn [memory v display stack] in *. unfold reset.
  remember load_fontset as LF eqn:HLF.
  do 2 cstep. flat.
  erewrite (bind_Done (zero_loop write_memory 0 _));
    [|apply (zero_loop_ok memory set_memory (fun _ _ => eq_refl) (fun _ _ _ => eq_refl)
               set_memory_same _ _ 0); [reflexivity|fill_len]].
  cbv beta. flat. rewrite take_0, app_nil_l, (drop_ge m) by fill_len.
  erewrite (bind_Done (zero_loop write_v 0 _));
    [|apply (zero_loop_ok v set_v (fun _ _ => eq_refl) (fun _ _ _ => eq_refl)
               (fun s => ltac:(destruct s; reflexivity)) _ _ 0); [reflexivity|fill_len]].
  cbv beta. flat. rewrite take_0, app_nil_l, (drop_ge r) by fill_len.
  do 2 cstep. flat.
  unfold clear_display.
  erewrite (bind_Done (clear_loop 0 _)); [|apply (clear_loop_ok _ 0); fill_len].
  cbv beta. flat. rewrite take_0, app_nil_l, (drop_ge d) by fill_len.
  cstep. flat.
  erewrite (bind_Done (zero_loop write_stack 0 _));
    [|apply (zero_loop_ok stack set_stack (fun _ _ => eq_refl) (fun _ _ _ => eq_refl)
               (fun s => ltac:(destruct s; reflexivity)) _ _ 0); [reflexivity|fill_len]].
  cbv beta. flat. rewrite take_0, app_nil_l, (drop_ge st) by fill_len.
  cstep. flat. subst LF. unfold load_fontset.
  erewrite (bind_Done (fontset_loop 0 _)); [|apply (fontset_loop_ok _ 0); fill_len].
  cbv beta. flat. rewrite take_0, app_nil_l.
  cstep. flat. unfold modify. flat.
  rewrite !app_nil_r. reflexivity.
Qed.



(** *** [dump_display] *)


Lemma sappend_assoc (a b c : string) : (a ++ (b ++ c) = (a ++ b) ++ c)%string.
Proof. induction a as [|ch a IH]; cbn; [reflexivity|]. rewrite IH. reflexivity. Qed.

Lemma sappend_nil_r (a : string) : (a ++ "" = a)%string.
Proof. induction a as [|ch a IH]; cbn; [reflexivity|]. rewrite IH. reflexivity. Qed.

Lemma sconcat_cons (x : string) l :
  String.concat "" (x :: l) = (x ++ String.concat "" l)%string.
Proof. destruct l; cbn; [rewrite sappend_nil_r|]; reflexivity. Qed.

Lemma dump_row_rest s r c f g acc :
  length (display s) = 2048%nat -> (1 <= c)%nat -> (c + f <= 64)%nat -> (r < 32)%nat ->
  dump_display_loop (Z.of_nat (64 * r + c)) (f + g) acc s =
  dump_display_loop (Z.of_nat (64 * r + c + f)) g
    (acc ++ String.concat ""
             (map (fun b : bool => if b then "1" else "0")%string
                  (take f (drop (64 * r + c) (display s)))))%string s.
Proof.
  intros Hd. revert c acc. induction f as [|f IH]; intros c acc Hc Hf Hr.
  - cbn [Nat.add take map]. rewrite Nat.add_0_r. cbn. rewrite sappend_nil_r. reflexivity.
  - cbn [Nat.add dump_display_loop]. unfold DISPLAY_WIDTH.
    replace (Z.of_nat (64 * r + c) mod 64 =? 0) with false.
    2:{ symmetry. apply Z.eqb_neq. rewrite Nat2Z.inj_add, Nat2Z.inj_mul.
        rewrite Z.add_comm, Z.mul_comm, Z_mod_plus_full, Z.mod_small; lia. }
    destruct (lookup_lt_is_Some_2 (display s) (64 * r + c) ltac:(lia)) as [b Hb].
    rewrite (bind_Done _ _ _ _ _ (read_display_ok _ b s ltac:(rewrite Nat2Z.id; exact Hb))).
    replace (Z.of_nat (64 * r + c) + 1) with (Z.of_nat (64 * r + S c)) by lia.
    rewrite IH by lia.
    rewrite (drop_S _ _ _ Hb). cbn [take map]. rewrite sconcat_cons, sappend_assoc.
    replace (64 * r + S c)%nat with (S (64 * r + c)) by lia.
    replace (S (64 * r + c) + f)%nat with (64 * r + c + S f)%nat by lia.
    reflexivity.
Qed.

Lemma dump_display_loop_S k f acc :
  dump_display_loop k (S f) acc =
  let* on := read_display k in
  dump_display_loop (k + 1) f
    ((if (k mod DISPLAY_WIDTH =? 0)%Z then (acc ++ newline)%string else acc)
     ++ (if on then "1" else "0"))%string.
Proof. reflexivity. Qed.

Lemma dump_rows s r q acc :
  length (display s) = 2048%nat -> (r + q <= 32)%nat ->
  dump_display_loop (Z.of_nat (64 * r)) (64 * q) acc s =
  Done (acc ++ String.concat ""
    (map (fun r => String.concat "" (newline ::
            map (fun b : bool => if b then "1" else "0")%string
                (take 64 (drop (64 * r) (display s)))))
         (seq r q)))%string s.
Proof.
  intros Hd. revert r acc. induction q as [|q IH]; intros r acc Hq.
  - cbn. rewrite sappend_nil_r. reflexivity.
  - replace (64 * S q)%nat with (S (63 + 64 * q)) by lia.
    rewrite dump_display_loop_S. unfold DISPLAY_WIDTH.
    replace (Z.of_nat (64 * r) mod 64 =? 0) with true.
    2:{ symmetry. apply Z.eqb_eq. rewrite Nat2Z.inj_mul, Z.mul_comm. apply Z_mod_mult. }
    destruct (lookup_lt_is_Some_2 (display s) (64 * r) ltac:(lia)) as [b Hb].
    rewrite (bind_Done _ _ _ _ _ (read_display_ok _ b s ltac:(rewrite Nat2Z.id; exact Hb))).
    replace (Z.of_nat (64 * r) + 1) with (Z.of_nat (64 * r + 1)) by lia.
    rewrite dump_row_rest by lia.
    replace (64 * r + 1 + 63)%nat with (64 * S r)%nat by lia.
    rewrite IH by lia.
    cbn [seq map]. rewrite (sconcat_cons (String.concat "" _)).
    rewrite (drop_S _ _ _ Hb). cbn [take map]. rewrite !sconcat_cons.
    rewrite Nat.add_1_r, <- !sappend_assoc. reflexivity.
Qed.

(** [dump_display] is the concatenation, for each of the 32 display rows,
    of a newline followed by the row's 64 pixels as '1' (on) or '0' (off);
    it leaves the machine unchanged. *)
Theorem dump_display_rows s :
  length (display s) = 2048%nat ->
  dump_display s =
  Done (String.concat ""
    (map (fun r => String.concat "" (newline ::
            map (fun b : bool => if b then "1" else "0")%string
                (take 64 (drop (64 * r) (display s)))))
         (seq 0 32))) s.
Proof.
  intros Hd. unfold dump_display.
  change (Z.to_nat MAX_DISPLAY_SIZE) with (64 * 32)%nat.
  change 0 with (Z.of_nat (64 * 0)).
  rewrite dump_rows by lia. reflexivity.
Qed.


(** *** Stepping mode of [run] *)


Lemma bind_assoc {A B C} (m : M A) (f : A -> M B) (g : B -> M C) s :
  bind (bind m f) g s = bind m (fun a => bind (f a) g) s.
Proof. unfold bind. destruct (m s); reflexivity. Qed.

Lemma bind_ext {A B} (m : M A) (f g : A -> M B) s :
  (forall a s', f a s' = g a s') -> bind m f s = bind m g s.
Proof. intros H. unfold bind. destruct (m s); [apply H|reflexivity]. Qed.

(** Stepping mode of the main loop: with k lines "n" read, the loop runs
    k + 1 cycles and then stops normally on a line "q", panics with illegal
    input on any other line, and also panics when the input ends (an
    exhausted stdin reads an empty line). *)
Theorem stepping_run ovf R gen_u8 (rng : R) k rest fuel s :
  (k < fuel)%nat ->
  run_loop ovf R gen_u8 true (repeat "n"%string k ++ "q"%string :: rest) rng fuel s =
    bind (steps ovf R gen_u8 (S k) rng) (fun _ => ret tt) s /\
  (forall l, l <> "n"%string -> l <> "q"%string ->
   run_loop ovf R gen_u8 true (repeat "n"%string k ++ l :: rest) rng fuel s =
     bind (steps ovf R gen_u8 (S k) rng) (fun _ => panic IllegalInput) s) /\
  run_loop ovf R gen_u8 true (repeat "n"%string k) rng fuel s =
    bind (steps ovf R gen_u8 (S k) rng) (fun _ => panic IllegalInput) s.
Proof.
  revert rng fuel s. induction k as [|k IH]; intros rng fuel s Hk;
    (destruct fuel as [|fuel]; [lia|]).
  - cbn [repeat app run_loop steps]. rewrite !bind_assoc.
    split; [|split]; [| intros l Hn Hq |]; apply bind_ext; intros rng' s'.
    + reflexivity.
    + apply String.eqb_neq in Hn, Hq. cbn [tail]. rewrite Hn, Hq. reflexivity.
    + reflexivity.
  - cbn [repeat app run_loop steps]. rewrite !bind_assoc.
    split; [|split]; [| intros l Hn Hq |]; apply bind_ext; intros rng' s';
      cbn [String.eqb Ascii.eqb Bool.eqb tail]; cbv iota beta.
    + apply (IH rng' fuel s'). lia.
    + apply (IH rng' fuel s'); [lia|assumption..].
    + apply (IH rng' fuel s'). lia.
Qed.


(** *** The stack-pointer invariant *)

Create HintDb keeps.

Lemma bind_Done_inv {A B} (m : M A) (f : A -> M B) s b s'' :
  bind m f s = Done b s'' -> exists a s', m s = Done a s' /\ f a s' = Done b s''.
Proof. unfold bind. destruct (m s) as [a s'|]; [eauto|discriminate]. Qed.

Lemma arith_Done ovf w r s a s' : 0 <= w ->
  arith ovf w r s = Done a s' -> s' = s /\ 0 <= a < 2 ^ w.
Proof.
  intros Hw. unfold arith. destruct ((0 <=? r) && (r <? 2 ^ w)) eqn:E.
  - intros H. injection H as <- <-. split; [reflexivity|lia].
  - destruct ovf; [discriminate|]. intros H. injection H as <- <-.
    split; [reflexivity|]. apply Z.mod_pos_bound. lia.
Qed.

Lemma index_Done {A} (l : list A) k s a s' :
  index l k s = Done a s' -> s' = s /\ l !! Z.to_nat k = Some a.
Proof.
  unfold index. destruct (l !! Z.to_nat k) eqn:E; [|discriminate].
  intros H. injection H as <- <-. auto.
Qed.

Lemma update_Done {A} (l : list A) k b s l' s' :
  update l k b s = Done l' s' -> s' = s /\ l' = <[Z.to_nat k := b]> l /\
                                 (Z.to_nat k < length l)%nat.
Proof.
  unfold update. destruct (Z.to_nat k <? length l)%nat eqn:E; [|discriminate].
  intros H. injection H as <- <-. apply Nat.ltb_lt in E. auto.
Qed.

Section Keeps.

Variable P : Chip8 -> Prop.

Lemma keeps_ret {A} (a : A) : keeps P (ret a).
Proof. intros s b s' HP H. injection H as _ <-. exact HP. Qed.

Lemma keeps_gets {A} (f : Chip8 -> A) : keeps P (gets f).
Proof. intros s b s' HP H. injection H as _ <-. exact HP. Qed.

Lemma keeps_panic {A} e : keeps P (@panic A e).
Proof. intros s b s' HP H. discriminate. Qed.

Lemma keeps_bind {A B} (m : M A) (f : A -> M B) :
  keeps P m -> (forall a, keeps P (f a)) -> keeps P (bind m f).
Proof.
  intros Hm Hf s b s'' HP H. apply bind_Done_inv in H as (a & s' & E1 & E2).
  exact (Hf a s' b s'' (Hm s a s' HP E1) E2).
Qed.

Lemma keeps_arith ovf w r : 0 <= w -> keeps P (arith ovf w r).
Proof. intros Hw s a s' HP H. apply arith_Done in H as [-> _]; auto. Qed.

Lemma keeps_read_memory k : keeps P (read_memory k).
Proof. intros s a s' HP H. apply index_Done in H as [-> _]. exact HP. Qed.
Lemma keeps_read_v k : keeps P (read_v k).
Proof. intros s a s' HP H. apply index_Done in H as [-> _]. exact HP. Qed.
Lemma keeps_read_display k : keeps P (read_display k).
Proof. intros s a s' HP H. apply index_Done in H as [-> _]. exact HP. Qed.
Lemma keeps_read_stack k : keeps P (read_stack k).
Proof. intros s a s' HP H. apply index_Done in H as [-> _]. exact HP. Qed.

End Keeps.

Lemma keeps_write_v k b : keeps sp_ok (write_v k b).
Proof.
  intros s a s' [(Hm & Hv & Hd & Hs) Hsp] H. apply bind_Done_inv in H as (l & t & E & H).
  apply update_Done in E as (-> & -> & _). injection H as _ <-.
  repeat split; cbn; rewrite ?length_insert; auto; lia.
Qed.

Lemma keeps_write_display k b : keeps sp_ok (write_display k b).
Proof.
  intros s a s' [(Hm & Hv & Hd & Hs) Hsp] H. apply bind_Done_inv in H as (l & t & E & H).
  apply update_Done in E as (-> & -> & _). injection H as _ <-.
  repeat split; cbn; rewrite ?length_insert; auto; lia.
Qed.

(** The call branch of [execute]: the push succeeds only below the top. *)
Lemma keeps_call ovf (p nnn : Z) {R} (rng : R) :
  keeps sp_ok
    (let* s0 := gets sp in
     let* _ := write_stack s0 p in
     let* s1 := arith ovf 8 (s0 + 1) in
     let* _ := modify (set_sp s1) in
     let* _ := modify (set_pc nnn) in ret rng).
Proof.
  intros s a s' [(Hm & Hv & Hd & Hs) Hsp] H.
  apply bind_Done_inv in H as (s0 & t & E & H). injection E as <- <-.
  apply bind_Done_inv in H as (u & t & E & H).
  apply bind_Done_inv in E as (l & t' & E & E').
  apply update_Done in E as (-> & -> & Hlt). injection E' as _ <-.
  apply bind_Done_inv in H as (s1 & t' & E & H).
  rewrite arith_in_range in E by (cbn in *; lia). injection E as <- <-.
  injection H as _ <-. cbn in *.
  repeat split; cbn; rewrite ?length_insert; auto; lia.
Qed.

(** The return branch of [execute]: the pop succeeds only above the bottom. *)
Lemma keeps_return ovf {R} (rng : R) :
  keeps sp_ok
    (let* s0 := gets sp in
     let* s1 := arith ovf 8 (s0 - 1) in
     let* _ := modify (set_sp s1) in
     let* addr := read_stack s1 in
     let* _ := modify (set_pc addr) in ret rng).
Proof.
  intros s a s' [(Hm & Hv & Hd & Hs) Hsp] H.
  apply bind_Done_inv in H as (s0 & t & E & H). injection E as <- <-.
  apply bind_Done_inv in H as (s1 & t & E & H).
  apply arith_Done in E as [-> Hs1]; [|lia].
  apply bind_Done_inv in H as (u & t & E & H). injection E as _ <-.
  apply bind_Done_inv in H as (addr & t & E & H).
  apply index_Done in E as [-> Hl]. cbn in Hl.
  apply lookup_lt_Some in Hl.
  injection H as _ <-. cbn in *.
  repeat split; cbn; auto; lia.
Qed.

#[local] Hint Resolve keeps_ret keeps_gets keeps_panic keeps_read_memory
  keeps_read_v keeps_read_display keeps_read_stack keeps_write_v
  keeps_write_display : keeps.

Ltac kframe :=
  repeat match goal with
    | |- keeps _ (bind (gets sp) _) =>
        first [ apply keeps_call | apply keeps_return ]
    | |- keeps _ (bind (arith _ _ _) _) =>
        apply keeps_bind; [ apply keeps_arith; lia | intros ? ]
    | |- keeps _ (bind _ _) => apply keeps_bind; [ | intros ? ]
    | |- keeps _ (let _ := _ in _) => cbv zeta
    | |- keeps _ (if ?b then _ else _) => destruct b
    | |- keeps _ (let (_, _) := ?p in _) => destruct p
    | |- keeps _ (modify _) =>
        let s := fresh in let HP := fresh in let H := fresh in
        intros s ? ? HP H; injection H as _ <-; exact HP
    | |- keeps _ (arith _ _ _) => apply keeps_arith; lia
    | |- _ => solve [ eauto with keeps ]
    end.

Lemma keeps_advance_pc ovf : keeps sp_ok (advance_pc ovf).
Proof. unfold advance_pc. kframe. Qed.
#[local] Hint Resolve keeps_advance_pc : keeps.

Lemma keeps_clear_loop k fuel : keeps sp_ok (clear_loop k fuel).
Proof. revert k. induction fuel; intros k; simpl; kframe. Qed.

Lemma keeps_draw_row_bits ovf xc yr data bit fuel :
  keeps sp_ok (draw_row_bits ovf xc yr data bit fuel).
Proof. revert bit. induction fuel; intros bit; simpl; kframe. Qed.
#[local] Hint Resolve keeps_clear_loop keeps_draw_row_bits : keeps.

Lemma keeps_draw_rows ovf xc yc row fuel : keeps sp_ok (draw_rows ovf xc yc row fuel).
Proof. revert row. induction fuel; intros row; simpl; kframe. Qed.
#[local] Hint Resolve keeps_draw_rows : keeps.

Lemma keeps_execute ovf R gen_u8 rng : keeps sp_ok (execute ovf R gen_u8 rng).
Proof. unfold execute. kframe. Qed.
#[local] Hint Resolve keeps_execute : keeps.

Lemma keeps_emulate_cycle ovf R gen_u8 rng : keeps sp_ok (emulate_cycle ovf R gen_u8 rng).
Proof. unfold emulate_cycle. kframe. Qed.
#[local] Hint Resolve keeps_emulate_cycle : keeps.

Lemma keeps_run_loop ovf R gen_u8 stepping inputs rng fuel :
  keeps sp_ok (run_loop ovf R gen_u8 stepping inputs rng fuel).
Proof.
  revert inputs rng. induction fuel; intros inputs rng; simpl; kframe.
Qed.

(** The stack pointer stays in 0..16 and the arrays keep their sizes over
    every completed cycle, and over every run of the main loop that ends
    without a panic, whatever the opcodes and the overflow mode. *)
Theorem stack_pointer_in_range ovf R gen_u8 stepping inputs (rng rng' : R) fuel
        (s s1 s2 : Chip8) :
  wf s -> 0 <= sp s <= 16 ->
  (emulate_cycle ovf R gen_u8 rng s = Done rng' s1 -> wf s1 /\ 0 <= sp s1 <= 16) /\
  (run_loop ovf R gen_u8 stepping inputs rng fuel s = Done tt s2 ->
   wf s2 /\ 0 <= sp s2 <= 16).
Proof.
  intros Hwf Hsp. split; intros H.
  - exact (keeps_emulate_cycle ovf R gen_u8 rng s rng' s1 (conj Hwf Hsp) H).
  - exact (keeps_run_loop ovf R gen_u8 stepping inputs rng fuel s tt s2
             (conj Hwf Hsp) H).
Qed.


(** *** Examples of the extra properties on concrete machines *)

Lemma skip_on_byte_witness :
  execute Checked unit no_rng tt (set_opcode (mk_opcode 3 0 0 7) regs_7_200) =
    Done tt (set_pc (pc regs_7_200 + (if 7 =? 0 * 16 + 7 then 4 else 2))
                    (set_opcode (mk_opcode 3 0 0 7) regs_7_200)) /\
  execute Checked unit no_rng tt (set_opcode (mk_opcode 4 0 0 7) regs_7_200) =
    Done tt (set_pc (pc regs_7_200 + (if 7 =? 0 * 16 + 7 then 2 else 4))
                    (set_opcode (mk_opcode 4 0 0 7) regs_7_200)).
Proof.
  apply (skip_on_byte Checked unit no_rng tt regs_7_200 0 0 7 7);
    solve [vm_compute; repeat split; reflexivity | lia | vm_compute; congruence].
Defined.

Lemma skip_on_registers_witness :
  execute Checked unit no_rng tt (set_opcode (mk_opcode 5 0 1 0) regs_7_200) =
    Done tt (set_pc (pc regs_7_200 + (if 7 =? 200 then 4 else 2))
                    (set_opcode (mk_opcode 5 0 1 0) regs_7_200)) /\
  execute Checked unit no_rng tt (set_opcode (mk_opcode 9 0 1 0) regs_7_200) =
    Done tt (set_pc (pc regs_7_200 + (if 7 =? 200 then 2 else 4))
                    (set_opcode (mk_opcode 9 0 1 0) regs_7_200)).
Proof.
  apply (skip_on_registers Checked unit no_rng tt regs_7_200 0 1 7 200);
    solve [vm_compute; repeat split; reflexivity | lia | vm_compute; congruence].
Defined.

Lemma load_add_immediate_witness :
  execute Checked unit no_rng tt (set_opcode (mk_opcode 6 1 15 15) regs_7_200) =
    Done tt (set_pc (pc regs_7_200 + 2)
               (set_v (<[Z.to_nat 1 := 15 * 16 + 15]> (v regs_7_200))
                  (set_opcode (mk_opcode 6 1 15 15) regs_7_200))) /\
  execute Checked unit no_rng tt (set_opcode (mk_opcode 7 1 15 15) regs_7_200) =
    Done tt (set_pc (pc regs_7_200 + 2)
               (set_v (<[Z.to_nat 1 := (200 + (15 * 16 + 15)) mod 256]> (v regs_7_200))
                  (set_opcode (mk_opcode 7 1 15 15) regs_7_200))).
Proof.
  apply (load_add_immediate Checked unit no_rng tt regs_7_200 1 15 15 200);
    solve [vm_compute; repeat split; reflexivity | lia | vm_compute; congruence].
Defined.

Lemma logic_ops_witness :
  execute Checked unit no_rng tt (set_opcode (mk_opcode 8 0 1 3) regs_7_200) =
    Done tt (set_pc (pc regs_7_200 + 2)
               (set_v (<[Z.to_nat 0 := Z.lxor 7 200]> (v regs_7_200))
                  (set_opcode (mk_opcode 8 0 1 3) regs_7_200))).
Proof.
  apply (logic_ops Checked unit no_rng tt regs_7_200 0 1 7 200);
    solve [vm_compute; repeat split; reflexivity | lia | vm_compute; congruence
          | right; right; right; reflexivity].
Defined.

Lemma reverse_subtract_witness :
  execute Checked unit no_rng tt (set_opcode (mk_opcode 8 0 1 7) regs_7_200) =
    Done tt (set_pc (pc regs_7_200 + 2)
      (set_v (<[Z.to_nat 0 := (200 - 7) mod 256]>
                (<[15%nat := if 7 <? 200 then 1 else 0]> (v regs_7_200)))
             (set_opcode (mk_opcode 8 0 1 7) regs_7_200))) /\
  execute Checked unit no_rng tt (set_opcode (mk_opcode 8 1 0 7) regs_7_200) =
    Panicked ArithmeticOverflow
      (set_v (<[15%nat := 0]> (v regs_7_200)) (set_opcode (mk_opcode 8 1 0 7) regs_7_200)).
Proof.
  split.
  - apply (proj1 (reverse_subtract Checked unit no_rng tt regs_7_200 0 1 7 200
                    ltac:(vm_compute; repeat split; reflexivity) ltac:(lia) ltac:(lia)
                    eq_refl eq_refl ltac:(lia) ltac:(lia)
                    ltac:(vm_compute; congruence) ltac:(vm_compute; reflexivity))).
    right. lia.
  - apply (proj2 (reverse_subtract Checked unit no_rng tt regs_7_200 1 0 200 7
                    ltac:(vm_compute; repeat split; reflexivity) ltac:(lia) ltac:(lia)
                    eq_refl eq_refl ltac:(lia) ltac:(lia)
                    ltac:(vm_compute; congruence) ltac:(vm_compute; reflexivity)));
      [reflexivity | lia].
Defined.

Lemma shift_ops_witness :
  execute Checked unit no_rng tt (set_opcode (mk_opcode 8 2 1 6) regs_7_200) =
    Done tt (set_pc (pc regs_7_200 + 2)
      (set_v (<[Z.to_nat 2 := Z.shiftr (if 2 =? 15 then Z.land 200 15 else 200) 1]>
                (<[15%nat := Z.land 200 15]> (<[Z.to_nat 2 := 200]> (v regs_7_200))))
             (set_opcode (mk_opcode 8 2 1 6) regs_7_200))) /\
  execute Checked unit no_rng tt (set_opcode (mk_opcode 8 2 1 14) regs_7_200) =
    Done tt (set_pc (pc regs_7_200 + 2)
      (set_v (<[Z.to_nat 2 :=
                  Z.land (Z.shiftl (if 2 =? 15 then Z.land 200 15 else 200) 1) 255]>
                (<[15%nat := Z.land 200 15]> (<[Z.to_nat 2 := 200]> (v regs_7_200))))
             (set_opcode (mk_opcode 8 2 1 14) regs_7_200))).
Proof.
  apply (shift_ops Checked unit no_rng tt regs_7_200 2 1 200);
    solve [vm_compute; repeat split; reflexivity | lia | vm_compute; congruence].
Defined.

Lemma jumps_and_index_witness :
  execute Checked unit no_rng tt (set_opcode (mk_opcode 1 3 4 5) regs_7_200) =
    Done tt (set_pc (3 * 256 + 4 * 16 + 5) (set_opcode (mk_opcode 1 3 4 5) regs_7_200)) /\
  execute Checked unit no_rng tt (set_opcode (mk_opcode 11 3 4 5) regs_7_200) =
    Done tt (set_pc (3 * 256 + 4 * 16 + 5 + 7)
                    (set_opcode (mk_opcode 11 3 4 5) regs_7_200)) /\
  (0 <= pc regs_7_200 -> pc regs_7_200 + 2 < 65536 ->
   execute Checked unit no_rng tt (set_opcode (mk_opcode 10 3 4 5) regs_7_200) =
     Done tt (set_pc (pc regs_7_200 + 2)
       (set_i (3 * 256 + 4 * 16 + 5) (set_opcode (mk_opcode 10 3 4 5) regs_7_200)))).
Proof.
  apply (jumps_and_index Checked unit no_rng tt regs_7_200 3 4 5 7);
    solve [vm_compute; repeat split; reflexivity | lia | vm_compute; congruence].
Defined.

Lemma random_byte_witness :
  execute Checked unit const_rng tt (set_opcode (mk_opcode 12 1 0 15) regs_7_200) =
    Done tt (set_pc (pc regs_7_200 + 2)
      (set_v (<[Z.to_nat 1 := Z.land 0xA5 (0 * 16 + 15)]> (v regs_7_200))
             (set_opcode (mk_opcode 12 1 0 15) regs_7_200))) /\
  0 <= Z.land 0xA5 (0 * 16 + 15) <= 0 * 16 + 15.
Proof.
  apply (random_byte Checked unit const_rng tt tt regs_7_200 1 0 15 0xA5);
    solve [vm_compute; repeat split; reflexivity | lia | vm_compute; congruence].
Defined.

Lemma clear_screen_witness :
  execute Checked unit no_rng tt (set_opcode (mk_opcode 0 0 14 0) draw_at_vf) =
    Done tt (set_pc (pc draw_at_vf + 2) (set_draw true
      (set_display (repeat false 2048) (set_opcode (mk_opcode 0 0 14 0) draw_at_vf)))).
Proof.
  apply (clear_screen Checked unit no_rng tt draw_at_vf);
    solve [vm_compute; repeat split; reflexivity | lia | vm_compute; congruence].
Defined.

Lemma draw_pixels_witness :
  exists s', execute Checked unit no_rng tt
               (set_opcode (mk_opcode 13 0 1 5) regs_7_200) = Done tt s'.
Proof.
  destruct (draw_pixels Checked unit no_rng tt regs_7_200 0 1 5 7 200)
    as (s' & H & _);
    [solve [vm_compute; repeat split; reflexivity | lia | vm_compute; congruence]..|].
  exists s'. exact H.
Defined.

Lemma draw_past_memory_witness :
  exists s', execute Checked unit no_rng tt
               (set_opcode (mk_opcode 13 0 1 2) sprite_at_end) =
    Panicked (IndexOutOfBounds 4096 4096) s' /\
    pc s' = pc sprite_at_end /\
    display s' = fst (toggle_all (display sprite_at_end)
      (rows_cells (memory sprite_at_end) (i sprite_at_end) (0 mod 64) (0 mod 32)
                  0 (Z.to_nat 1))).
Proof.
  apply (draw_past_memory Checked unit no_rng tt sprite_at_end 0 1 2 0 0 1);
    solve [vm_compute; repeat split; reflexivity | lia | vm_compute; congruence].
Defined.

Lemma reset_is_new_witness : reset draw_at_vf = Done tt new.
Proof.
  apply (reset_is_new draw_at_vf).
  vm_compute; repeat split; reflexivity.
Defined.

Lemma dump_display_rows_witness :
  dump_display new =
  Done (String.concat ""
    (map (fun r => String.concat "" (newline ::
            map (fun b : bool => if b then "1" else "0")%string
                (take 64 (drop (64 * r) (display new)))))
         (seq 0 32))) new.
Proof. apply (dump_display_rows new). vm_compute. reflexivity. Defined.

Lemma stepping_run_witness :
  run_loop Checked unit no_rng true (repeat "n"%string 1 ++ "q"%string :: [])
           tt 2 add_into_vf =
    bind (steps Checked unit no_rng 2 tt) (fun _ => ret tt) add_into_vf.
Proof.
  apply (stepping_run Checked unit no_rng tt 1 [] 2 add_into_vf). lia.
Defined.

Lemma stack_pointer_in_range_witness :
  wf (final_state (emulate_cycle Checked unit no_rng tt call_then_return)) /\
  0 <= sp (final_state (emulate_cycle Checked unit no_rng tt call_then_return)) <= 16.
Proof.
  apply (proj1 (stack_pointer_in_range Checked unit no_rng true [] tt tt 1
                  call_then_return
                  (final_state (emulate_cycle Checked unit no_rng tt call_then_return))
                  call_then_return
                  ltac:(vm_compute; repeat split; reflexivity)
                  ltac:(vm_compute; split; congruence))).
  vm_compute. reflexivity.
Defined.

